(** * Governance deployer: a shallow embedding of the deployment scripts

    The development follows the TypeScript sources:
    - [src/hardhat.config.ts] holds the deployment script ([deployGovernance],
      its step functions, [setClaimRecipients], [mapPointsToAmounts] and
      [writeAddresses]);
    - [src/scripts/providerSetup.ts] holds the environment handling
      ([checkEnvVars], [loadClaimRecipients], [getDeployersAndConfig],
      [isLocalDeployment]) and the writer of the progress file
      ([updateDeployedContracts]).

    JavaScript objects are association lists in insertion order, [BigNumber]s
    are integers, and everything the script awaits from a chain is answered
    by an oracle indexed by the number of requests made so far. *)

From Stdlib Require Import String Ascii List ZArith Lia Bool Arith DecimalString.
Import ListNotations.
Open Scope string_scope.
Open Scope list_scope.

(** ** Outcomes of a call *)

(** A call returns, throws an [Error] with a message, or (for the models of
    unbounded loops only) exhausts the iteration budget it was given. *)
Inductive Outcome (A : Type) : Type :=
| Returned (a : A)
| Threw (message : string)
| OutOfFuel.
Arguments Returned {A} a.
Arguments Threw {A} message.
Arguments OutOfFuel {A}.

(** ** JavaScript values used by the scripts *)

Module Js.

(** [Number.prototype.toString] and [BigNumber.toString] on an integer. *)
Definition toString (z : Z) : string := NilZero.string_of_int (Z.to_int z).

(** A plain object with string keys: properties in insertion order.
    Assigning an existing property keeps its position. *)
Definition object (V : Type) : Type := list (string * V).

Fixpoint get {V} (o : object V) (key : string) : option V :=
  match o with
  | [] => None
  | (k, v) :: rest => if String.eqb k key then Some v else get rest key
  end.

Fixpoint set {V} (o : object V) (key : string) (value : V) : object V :=
  match o with
  | [] => [(key, value)]
  | (k, v) :: rest =>
      if String.eqb k key then (k, value) :: rest
      else (k, v) :: set rest key value
  end.

Definition keys {V} (o : object V) : list string := map fst o.

(** [Object.fromEntries]: the entries are assigned from left to right. *)
Definition fromEntries {V} (entries : list (string * V)) : object V :=
  fold_left (fun o e => set o (fst e) (snd e)) entries [].

(** [Array.prototype.slice(from, to)] and [slice(from)] for indices that
    are not negative; both clamp at the end of the array. *)
Definition slice {A} (from to : nat) (l : list A) : list A :=
  firstn (to - from) (skipn from l).

Definition sliceFrom {A} (from : nat) (l : list A) : list A := skipn from l.

(** [array.map((x, i) => f x i)]. *)
Fixpoint mapi_from {A B} (i : nat) (f : A -> nat -> B) (l : list A) : list B :=
  match l with
  | [] => []
  | x :: rest => f x i :: mapi_from (S i) f rest
  end.

Definition mapi {A B} (f : A -> nat -> B) (l : list A) : list B :=
  mapi_from 0 f l.

End Js.

(** ** Recipient mapper ([mapPointsToAmounts], hardhat.config.ts 665-713) *)

(** [parseEther] of a decimal integer literal: 18 decimals. *)
Definition parseEther (tokens : Z) : Z := (tokens * 10 ^ 18)%Z.

(** The [switch (points)] statement; [None] is the [default] branch. *)
Definition amountForPoints (points : Z) : option Z :=
  match points with
  | 3 => Some (parseEther 3000)
  | 4 => Some (parseEther 4500)
  | 5 => Some (parseEther 6000)
  | 6 => Some (parseEther 9000)
  | 7 => Some (parseEther 10500)
  | 8 | 9 | 10 | 11 | 12 | 13 | 14 | 15 => Some (parseEther 12000)
  | _ => None
  end%Z.

Definition incorrectPoints (key : string) (points : Z) : string :=
  ("Incorrect number of points for account " ++ key ++ ": " ++ Js.toString points)%string.

(** The [for (const key in tokenRecipientsByPoints)] loop.  The recipient
    file is an object from account to [{points: integer}]; it is given by
    its properties in enumeration order.  The account is pushed before its
    points are inspected, as in the source. *)
Fixpoint mapPointsToAmounts_from
    (entries : Js.object Z) (tokenRecipients : list string) (tokenAmounts : list Z)
  : Outcome (list string * list Z) :=
  match entries with
  | [] => Returned (tokenRecipients, tokenAmounts)
  | (key, points) :: rest =>
      let tokenRecipients := tokenRecipients ++ [key] in
      match amountForPoints points with
      | Some amount => mapPointsToAmounts_from rest tokenRecipients (tokenAmounts ++ [amount])
      | None => Threw (incorrectPoints key points)
      end
  end.

Definition mapPointsToAmounts (tokenRecipientsByPoints : Js.object Z)
  : Outcome (list string * list Z) :=
  mapPointsToAmounts_from tokenRecipientsByPoints [] [].

(** The table of the specification, in whole tokens, written out to be
    compared with the [switch]. *)
Definition specAmountTable : list (Z * Z) :=
  [ (3, 3000); (4, 4500); (5, 6000); (6, 9000); (7, 10500);
    (8, 12000); (9, 12000); (10, 12000); (11, 12000);
    (12, 12000); (13, 12000); (14, 12000); (15, 12000) ]%Z.

Definition validPoints (points : Z) : Prop := In points (map fst specAmountTable).

Definition tableAmount (points amount : Z) : Prop :=
  exists tokens, In (points, tokens) specAmountTable /\ amount = parseEther tokens.

(** ** The world the script runs in *)

Inductive Layer : Type := Eth | Arb | Nova.

(** Arguments of a contract call, as far as the script computes them.
    [Const name] is [GovernanceConstants.name], a value of
    [governance.constants] that the script only passes on; [Signer l] is
    the address of the deployer on [l]; [Aliased a] is [a] under the
    L1-to-L2 address alias; [DataLength m as] is the length in bytes of
    the encoded call of [m] on the addresses [as]. *)
Inductive Arg : Type :=
| Addr (address : string)
| Num (n : Z)
| Const (name : string)
| Addrs (addresses : list string)
| Nums (ns : list Z)
| Signer (layer : Layer)
| Aliased (address : string)
| Bytes (hex : string)
| DataLength (method : string) (addresses : list string).

(** What the script asks of the outside world, in order. *)
Inductive Event : Type :=
| Deploy (on : Layer) (factory : string) (args : list Arg)
| Send (on : Layer) (contract method : string) (args : list Arg)
| Wait (on : Layer) (what : string)
| Read (on : Layer) (contract method : string) (args : list Arg)
| Sleep (ms : Z).

(** Status of a retryable message ([L1ToL2MessageStatus] of the Arbitrum
    SDK, a numeric enum). *)
Inductive L1ToL2MessageStatus : Type :=
| NOT_YET_CREATED
| CREATION_FAILED
| FUNDS_DEPOSITED_ON_L2
| REDEEMED
| EXPIRED.

Definition statusCode (s : L1ToL2MessageStatus) : Z :=
  match s with
  | NOT_YET_CREATED => 1
  | CREATION_FAILED => 2
  | FUNDS_DEPOSITED_ON_L2 => 3
  | REDEEMED => 4
  | EXPIRED => 5
  end%Z.

Definition isRedeemed (s : L1ToL2MessageStatus) : bool :=
  match s with REDEEMED => true | _ => false end.

(** The answers of the chains.  The [n]-th request of a run (deployment,
    transaction, confirmation wait or read) either goes through or throws;
    when it goes through, the fields give what it yields. *)
Record Chains : Type := {
  confirms : nat -> bool;
  address : nat -> string;            (* address of the contract deployed or read *)
  number : nat -> Z;                  (* gas price, fee *)
  eventArg : nat -> string -> string; (* field of the [Deployed] event of a receipt *)
  status : nat -> L1ToL2MessageStatus; (* result of [waitForStatus] *)
  deployers : Outcome unit            (* outcome of [getDeployers()] *)
}.

(** The state of a run: the module variable [deployedContracts], the files
    on disk (path and contents), what has been asked of the outside so far,
    and the number of requests answered by the chains. *)
Record World : Type := {
  deployedContracts : Js.object string;
  disk : Js.object string;
  trace : list Event;
  requests : nat
}.

Definition setDeployedContracts (f : Js.object string -> Js.object string) (w : World) : World :=
  {| deployedContracts := f (deployedContracts w);
     disk := disk w;
     trace := trace w;
     requests := requests w |}.

Definition setDisk (f : Js.object string -> Js.object string) (w : World) : World :=
  {| deployedContracts := deployedContracts w;
     disk := f (disk w);
     trace := trace w;
     requests := requests w |}.

Definition record (e : Event) (w : World) : World :=
  {| deployedContracts := deployedContracts w;
     disk := disk w;
     trace := trace w ++ [e];
     requests := requests w |}.

Definition answered (w : World) : World :=
  {| deployedContracts := deployedContracts w;
     disk := disk w;
     trace := trace w;
     requests := S (requests w) |}.

(** ** The script monad: state, exceptions and a budget for [while (true)] *)

Definition Script (A : Type) : Type := World -> Outcome A * World.

Definition ret {A} (a : A) : Script A := fun w => (Returned a, w).

Definition bind {A B} (m : Script A) (k : A -> Script B) : Script B :=
  fun w =>
    match m w with
    | (Returned a, w') => k a w'
    | (Threw message, w') => (Threw message, w')
    | (OutOfFuel, w') => (OutOfFuel, w')
    end.

Definition throw {A} (message : string) : Script A := fun w => (Threw message, w).

Definition outOfFuel {A} : Script A := fun w => (OutOfFuel, w).

Declare Scope script_scope.
Delimit Scope script_scope with script.
Notation "x <- m ;; k" := (bind m (fun x => k))
  (at level 61, m at next level, right associativity) : script_scope.
Notation "m ;; k" := (bind m (fun _ => k))
  (at level 61, right associativity) : script_scope.
Open Scope script_scope.

(** [deployedContracts[key] = value]. *)
Definition store (key value : string) : Script unit :=
  fun w => (Returned tt, setDeployedContracts (fun o => Js.set o key value) w).

(** [await new Promise((resolve) => setTimeout(resolve, ms))]. *)
Definition sleep (ms : Z) : Script unit :=
  fun w => (Returned tt, record (Sleep ms) w).

Definition requestFailed : string := "request failed".

Section Script.

Variable net : Chains.

(** One awaited request; yields its index, at which [net] is read. *)
Definition request (e : Event) : Script nat :=
  fun w =>
    let n := requests w in
    let w' := answered (record e w) in
    if confirms net n then (Returned n, w') else (Threw requestFailed, w').

(** [await new X__factory(signer).deploy(args)]: the contract's address. *)
Definition deploy (on : Layer) (factory : string) (args : list Arg) : Script string :=
  n <- request (Deploy on factory args) ;; ret (address net n).

(** [await contract.deployed()] and [await tx.wait()]. *)
Definition wait (on : Layer) (what : string) : Script nat :=
  request (Wait on what).

(** [await contract.method(args)] for a transaction. *)
Definition send (on : Layer) (contract method : string) (args : list Arg) : Script unit :=
  _ <- request (Send on contract method args) ;; ret tt.

(** [await (await contract.method(args)).wait()]. *)
Definition sendAndWait (on : Layer) (contract method : string) (args : list Arg)
  : Script nat :=
  send on contract method args ;; wait on method.

(** [await provider.getGasPrice()]. *)
Definition getGasPrice (on : Layer) : Script Z :=
  n <- request (Read on "provider" "getGasPrice" []) ;; ret (number net n).

(** [getDeployers] of [providerSetup] builds the three signers; it asks
    nothing of the chains that the script records. *)
Definition getDeployers : Script unit := fun w => (deployers net, w).

(** *** Recipient registration ([setClaimRecipients], 581-659) *)

(** 0.12 gwei and 0.1 gwei. *)
Definition GAS_PRICE_UNACCEPTABLE_LIMIT : Z := 120000000.
Definition BASE_GAS_PRICE : Z := 100000000.

(** The [while (true)] loop of lines 605-620, with a budget of
    iterations: sleep, sample again, leave on the base price. *)
Fixpoint waitForBaseGasPrice (fuel : nat) : Script Z :=
  match fuel with
  | 0 => outOfFuel
  | S fuel' =>
      sleep 30000 ;;
      gasPriceBestGuess <- getGasPrice Arb ;;
      if (gasPriceBestGuess =? BASE_GAS_PRICE)%Z then ret gasPriceBestGuess
      else waitForBaseGasPrice fuel'
  end.

(** Lines 601-621: sample the price; above the limit, enter the loop. *)
Definition gasGuard (fuel : nat) : Script unit :=
  gasPriceBestGuess <- getGasPrice Arb ;;
  if (GAS_PRICE_UNACCEPTABLE_LIMIT <? gasPriceBestGuess)%Z
  then _ <- waitForBaseGasPrice fuel ;; ret tt
  else ret tt.

(** Lines 644-646; the gas statistics that follow are only printed. *)
Definition setRecipients (tokenDistributor : string)
    (recipientsBatch : list string) (amountsBatch : list Z) : Script unit :=
  _ <- sendAndWait Arb tokenDistributor "setRecipients"
         [Addrs recipientsBatch; Nums amountsBatch] ;;
  ret tt.

Section Batches.

Variable BATCH_SIZE : nat.
Variable tokenDistributor : string.
Variable tokenRecipients : list string.
Variable tokenAmounts : list Z.
(** Budget of every [while (true)] loop and of the [for] loop. *)
Variable budget : nat.

Definition numOfBatches : nat := length tokenRecipients / BATCH_SIZE.

(** The [for (let i = ...; i <= numOfBatches; i++)] loop, from [i] on. *)
Fixpoint batchesFrom (fuel : nat) (i : nat) : Script unit :=
  if (numOfBatches <? i)%nat then ret tt
  else
    match fuel with
    | 0 => outOfFuel
    | S fuel' =>
        gasGuard budget ;;
        sleep 1000 ;;
        if (i <? numOfBatches)%nat then
          setRecipients tokenDistributor
            (Js.slice (i * BATCH_SIZE) ((i + 1) * BATCH_SIZE) tokenRecipients)
            (Js.slice (i * BATCH_SIZE) ((i + 1) * BATCH_SIZE) tokenAmounts) ;;
          batchesFrom fuel' (S i)
        else if (length tokenRecipients =? numOfBatches * BATCH_SIZE)%nat then
          ret tt
        else
          setRecipients tokenDistributor
            (Js.sliceFrom (i * BATCH_SIZE) tokenRecipients)
            (Js.sliceFrom (i * BATCH_SIZE) tokenAmounts) ;;
          batchesFrom fuel' (S i)
    end.

End Batches.

Definition liftOutcome {A} (o : Outcome A) : Script A := fun w => (o, w).

(** [setClaimRecipients] for a batch size.  [alreadySet] is
    [GovernanceConstants.L2_NUM_OF_RECIPIENT_BATCHES_ALREADY_SET], and
    [tokenRecipientsByPoints] the contents of [files/recipients.json]. *)
Definition setClaimRecipientsBy (BATCH_SIZE : nat) (alreadySet : nat)
    (tokenRecipientsByPoints : Js.object Z) (budget : nat)
    (tokenDistributor : string) : Script unit :=
  mapped <- liftOutcome (mapPointsToAmounts tokenRecipientsByPoints) ;;
  batchesFrom BATCH_SIZE tokenDistributor (fst mapped) (snd mapped) budget budget alreadySet.

Definition setClaimRecipients : nat -> Js.object Z -> nat -> string -> Script unit :=
  setClaimRecipientsBy 100.

End Script.

(** ** Progress file ([writeAddresses], [updateDeployedContracts]) *)

Definition DEPLOYED_CONTRACTS_FILE_NAME : string := "deployedContracts.json".

Definition quote : string := String (ascii_of_nat 34) EmptyString.
Definition newline : string := String (ascii_of_nat 10) EmptyString.

Definition quoted (s : string) : string := (quote ++ s ++ quote)%string.

Fixpoint joinWith (separator : string) (parts : list string) : string :=
  match parts with
  | [] => EmptyString
  | [part] => part
  | part :: rest => (part ++ separator ++ joinWith separator rest)%string
  end.

(** [JSON.stringify(o)] of a flat object whose keys and string values are
    identifiers and hexadecimal addresses (nothing to escape). *)
Definition stringify (o : Js.object string) : string :=
  ("{" ++ joinWith "," (map (fun kv => quoted (fst kv) ++ ":" ++ quoted (snd kv)) o) ++ "}")%string.

(** The values of a [DeployProgressCache]: addresses, flags, block numbers. *)
Inductive CacheValue : Type :=
| CacheString (s : string)
| CacheBool (b : bool)
| CacheNumber (n : Z).

Definition stringifyValue (v : CacheValue) : string :=
  match v with
  | CacheString s => quoted s
  | CacheBool true => "true"
  | CacheBool false => "false"
  | CacheNumber n => Js.toString n
  end.

Definition DeployProgressCache : Type := Js.object CacheValue.

(** [JSON.stringify(cache, null, 2)]. *)
Definition stringifyIndented (cache : DeployProgressCache) : string :=
  match cache with
  | [] => "{}"
  | _ =>
      ("{" ++ newline
       ++ joinWith ("," ++ newline)
            (map (fun kv => "  " ++ quoted (fst kv) ++ ": " ++ stringifyValue (snd kv)) cache)
       ++ newline ++ "}")%string
  end.

(** [fs.writeFileSync(path, data)] opens [path] with flag [w], which creates
    the file or truncates it to length zero, and then writes [data] into it
    from the front.  [writeInterrupted written] is the disk a run leaves
    behind when it dies after [written] characters have reached the file;
    the call has returned when all of [data] is there. *)
Definition truncateFile (path : string) (files : Js.object string) : Js.object string :=
  Js.set files path EmptyString.

Definition writeInterrupted (written : nat) (path data : string)
    (files : Js.object string) : Js.object string :=
  Js.set (truncateFile path files) path (substring 0 written data).

Definition writeFileSync (path data : string) : Script unit :=
  fun w => (Returned tt, setDisk (writeInterrupted (String.length data) path data) w).

(** hardhat.config.ts 715-718. *)
Definition writeAddresses : Script unit :=
  fun w => writeFileSync DEPLOYED_CONTRACTS_FILE_NAME (stringify (deployedContracts w)) w.

(** providerSetup.ts 184-186; [location] is [envVars.deployedContractsLocation]. *)
Definition updateDeployedContracts (location : string) (cache : DeployProgressCache)
  : Script unit :=
  writeFileSync location (stringifyIndented cache).

(** ** Deployment steps (hardhat.config.ts 181-572) *)

(** Fields of the [Deployed] events of the two governance factories. *)
Record L2DeployedEventObject : Type := {
  l2_coreGoverner : string;
  l2_coreTimelock : string;
  l2_executor : string;
  l2_proxyAdmin : string;
  l2_token : string;
  l2_treasuryGoverner : string;
  l2_arbTreasury : string
}.

Record L1DeployedEventObject : Type := {
  l1_executor : string;
  l1_proxyAdmin : string;
  l1_timelock : string
}.

Record L2Logic : Type := {
  timelockLogic : string;
  governorLogic : string;
  fixedDelegateLogic : string;
  l2TokenLogic : string;
  upgradeExecutor : string
}.

Definition registerTokenNotRedeemed (s : L1ToL2MessageStatus) : string :=
  ("Register token L1 to L2 message not redeemed. Status: " ++ Js.toString (statusCode s))%string.

Definition setGatewayNotRedeemed (s : L1ToL2MessageStatus) : string :=
  ("Set gateway L1 to L2 message not redeemed. Status: " ++ Js.toString (statusCode s))%string.

Section Steps.

Variable net : Chains.

Definition deployL1LogicContracts : Script string :=
  l1UpgradeExecutorLogic <- deploy net Eth "UpgradeExecutor" [] ;;
  store "l1UpgradeExecutorLogic" l1UpgradeExecutorLogic ;;
  ret l1UpgradeExecutorLogic.

Definition deployL2LogicContracts : Script L2Logic :=
  timelockLogic <- deploy net Arb "ArbitrumTimelock" [] ;;
  governorLogic <- deploy net Arb "L2ArbitrumGovernor" [] ;;
  fixedDelegateLogic <- deploy net Arb "FixedDelegateErc20Wallet" [] ;;
  l2TokenLogic <- deploy net Arb "L2ArbitrumToken" [] ;;
  upgradeExecutor <- deploy net Arb "UpgradeExecutor" [] ;;
  store "l2TimelockLogic" timelockLogic ;;
  store "l2GovernorLogic" governorLogic ;;
  store "l2FixedDelegateLogic" fixedDelegateLogic ;;
  store "l2TokenLogic" l2TokenLogic ;;
  store "l2UpgradeExecutorLogic" upgradeExecutor ;;
  ret {| timelockLogic := timelockLogic;
         governorLogic := governorLogic;
         fixedDelegateLogic := fixedDelegateLogic;
         l2TokenLogic := l2TokenLogic;
         upgradeExecutor := upgradeExecutor |}.

Definition deployL1GovernanceFactory : Script string :=
  l1GovernanceFactory <- deploy net Eth "L1GovernanceFactory" [] ;;
  wait net Eth "deployed" ;;
  store "l1GovernanceFactory" l1GovernanceFactory ;;
  ret l1GovernanceFactory.

(** Returns the proxy's address: [l1Token] is the proxy seen through the
    token's interface. *)
Definition deployAndInitL1Token : Script string :=
  l1TokenLogic <- deploy net Eth "L1ArbitrumToken" [] ;;
  l1TokenProxy <- deploy net Eth "TransparentUpgradeableProxy"
                    [Addr l1TokenLogic; Signer Eth; Bytes "0x"] ;;
  wait net Eth "deployed" ;;
  store "l1TokenLogic" l1TokenLogic ;;
  store "l1TokenProxy" l1TokenProxy ;;
  ret l1TokenProxy.

Definition deployL2GovernanceFactory (logic : L2Logic) : Script string :=
  l2GovernanceFactory <- deploy net Arb "L2GovernanceFactory"
      [Addr (timelockLogic logic); Addr (governorLogic logic);
       Addr (timelockLogic logic); Addr (fixedDelegateLogic logic);
       Addr (governorLogic logic); Addr (l2TokenLogic logic);
       Addr (upgradeExecutor logic)] ;;
  store "l2GovernanceFactory" l2GovernanceFactory ;;
  ret l2GovernanceFactory.

(** Returns [novaProxyAdmin] and [novaUpgradeExecutorProxy]. *)
Definition deployNovaUpgradeExecutor : Script (string * string) :=
  novaProxyAdmin <- deploy net Nova "ProxyAdmin" [] ;;
  wait net Nova "deployed" ;;
  novaUpgradeExecutorLogic <- deploy net Nova "UpgradeExecutor" [] ;;
  novaUpgradeExecutorProxy <- deploy net Nova "TransparentUpgradeableProxy"
      [Addr novaUpgradeExecutorLogic; Addr novaProxyAdmin; Bytes "0x"] ;;
  wait net Nova "deployed" ;;
  store "novaProxyAdmin" novaProxyAdmin ;;
  store "novaUpgradeExecutorLogic" novaUpgradeExecutorLogic ;;
  store "novaUpgradeExecutorProxy" novaUpgradeExecutorProxy ;;
  ret (novaProxyAdmin, novaUpgradeExecutorProxy).

Definition deployTokenToNova (proxyAdmin l1Token : string) : Script string :=
  novaTokenLogic <- deploy net Nova "L2CustomGatewayToken" [] ;;
  novaTokenProxy <- deploy net Nova "TransparentUpgradeableProxy"
      [Addr novaTokenLogic; Addr proxyAdmin; Bytes "0x"] ;;
  wait net Nova "deployed" ;;
  send net Nova novaTokenProxy "initialize"
      [Const "NOVA_TOKEN_NAME"; Const "NOVA_TOKEN_SYMBOL"; Const "NOVA_TOKEN_DECIMALS";
       Const "NOVA_TOKEN_GATEWAY"; Addr l1Token] ;;
  store "novaTokenLogic" novaTokenLogic ;;
  store "novaTokenProxy" novaTokenProxy ;;
  ret novaTokenProxy.

Definition initL2Governance (l2GovernanceFactory l1TokenAddress : string)
  : Script L2DeployedEventObject :=
  send net Arb l2GovernanceFactory "deployStep1"
      [Const "L2_TIMELOCK_DELAY"; Const "L2_TOKEN_INITIAL_SUPPLY";
       Const "L2_7_OF_12_SECURITY_COUNCIL"; Const "L2_CORE_QUORUM_TRESHOLD";
       Addr l1TokenAddress; Const "L2_TREASURY_QUORUM_TRESHOLD";
       Const "L2_PROPOSAL_TRESHOLD"; Const "L2_VOTING_DELAY"; Const "L2_VOTING_PERIOD";
       Const "L2_MIN_PERIOD_AFTER_QUORUM"; Signer Arb;
       Const "L2_9_OF_12_SECURITY_COUNCIL"] ;;
  receipt <- wait net Arb "deployStep1" ;;
  let l2DeployResult :=
    {| l2_coreGoverner := eventArg net receipt "coreGoverner";
       l2_coreTimelock := eventArg net receipt "coreTimelock";
       l2_executor := eventArg net receipt "executor";
       l2_proxyAdmin := eventArg net receipt "proxyAdmin";
       l2_token := eventArg net receipt "token";
       l2_treasuryGoverner := eventArg net receipt "treasuryGoverner";
       l2_arbTreasury := eventArg net receipt "arbTreasury" |} in
  store "l2CoreGoverner" (l2_coreGoverner l2DeployResult) ;;
  store "l2CoreTimelock" (l2_coreTimelock l2DeployResult) ;;
  store "l2Executor" (l2_executor l2DeployResult) ;;
  store "l2ProxyAdmin" (l2_proxyAdmin l2DeployResult) ;;
  store "l2Token" (l2_token l2DeployResult) ;;
  store "l2TreasuryGoverner" (l2_treasuryGoverner l2DeployResult) ;;
  store "l2ArbTreasury" (l2_arbTreasury l2DeployResult) ;;
  ret l2DeployResult.

Definition initL1Governance (l1GovernanceFactory l1UpgradeExecutorLogic : string)
    (l2DeployResult : L2DeployedEventObject) : Script L1DeployedEventObject :=
  send net Eth l1GovernanceFactory "deployStep2"
      [Addr l1UpgradeExecutorLogic; Const "L1_TIMELOCK_DELAY"; Const "L1_ARB_INBOX";
       Addr (l2_coreTimelock l2DeployResult); Const "L1_9_OF_12_SECURITY_COUNCIL"] ;;
  receipt <- wait net Eth "deployStep2" ;;
  let l1DeployResult :=
    {| l1_executor := eventArg net receipt "executor";
       l1_proxyAdmin := eventArg net receipt "proxyAdmin";
       l1_timelock := eventArg net receipt "timelock" |} in
  store "l1Executor" (l1_executor l1DeployResult) ;;
  store "l1ProxyAdmin" (l1_proxyAdmin l1DeployResult) ;;
  store "l1Timelock" (l1_timelock l1DeployResult) ;;
  ret l1DeployResult.

Definition setExecutorRoles (l1DeployResult : L1DeployedEventObject)
    (l2GovernanceFactory novaUpgradeExecutorProxy novaProxyAdmin : string)
  : Script unit :=
  let l1TimelockAliased := Aliased (l1_timelock l1DeployResult) in
  send net Arb l2GovernanceFactory "deployStep3" [l1TimelockAliased] ;;
  send net Nova novaUpgradeExecutorProxy "initialize"
      [Addr novaUpgradeExecutorProxy; l1TimelockAliased;
       Const "NOVA_9_OF_12_SECURITY_COUNCIL"] ;;
  send net Nova novaProxyAdmin "transferOwnership" [Addr novaUpgradeExecutorProxy].

(** [await contract.method(args)] for a view function yielding an address. *)
Definition readAddress (on : Layer) (contract method : string) (args : list Arg)
  : Script string :=
  n <- request net (Read on contract method args) ;; ret (address net n).

Definition readNumber (on : Layer) (contract method : string) (args : list Arg)
  : Script Z :=
  n <- request net (Read on contract method args) ;; ret (number net n).

(** [await message.waitForStatus()]: the status the message ended in. *)
Definition waitForStatus (message : string) : Script L1ToL2MessageStatus :=
  n <- request net (Wait Nova message) ;; ret (status net n).

(** Lines 498-510: both statuses are awaited, then checked in turn. *)
Definition awaitRedeemed : Script unit :=
  setTokenTx <- waitForStatus "l1ToL2Msgs[0]" ;;
  setGatewaysTX <- waitForStatus "l1ToL2Msgs[1]" ;;
  if negb (isRedeemed setTokenTx) then throw (registerTokenNotRedeemed setTokenTx)
  else if negb (isRedeemed setGatewaysTX) then throw (setGatewayNotRedeemed setGatewaysTX)
  else ret tt.

(** Lines 416-496, up to the retryable messages of the registration. *)
Definition registerTokenOnNova (l1TokenProxy l1ProxyAdminAddress novaTokenAddress : string)
  : Script unit :=
  sendAndWait net Eth l1TokenProxy "changeAdmin" [Addr l1ProxyAdminAddress] ;;
  sendAndWait net Eth l1TokenProxy "initialize"
      [Const "L1_ARB_GATEWAY"; Const "L1_NOVA_ROUTER"; Const "L1_NOVA_GATEWAY"] ;;
  let maxGas := 1000000%Z in
  gasPrice <- getGasPrice net Nova ;;
  let novaGasPrice := (gasPrice * 2)%Z in
  novaGateway <- readAddress Eth l1TokenProxy "novaGateway" [] ;;
  novaInbox <- readAddress Eth novaGateway "inbox" [] ;;
  gatewayFee <- readNumber Eth novaInbox "calculateRetryableSubmissionFee"
      [DataLength "registerTokenFromL1" [l1TokenProxy; novaTokenAddress];
       Num 0] ;;
  let novaGatewaySubmissionFee := (gatewayFee * 2)%Z in
  let valueForNovaGateway := (novaGatewaySubmissionFee + maxGas * novaGasPrice)%Z in
  routerFee <- readNumber Eth novaInbox "calculateRetryableSubmissionFee"
      [DataLength "setGateway" [l1TokenProxy; novaGateway]; Num 0] ;;
  let novaRouterSubmissionFee := (routerFee * 2)%Z in
  let valueForNovaRouter := (novaRouterSubmissionFee + maxGas * novaGasPrice)%Z in
  let extra := 1000%Z in
  send net Eth l1TokenProxy "registerTokenOnL2"
      [Addr novaTokenAddress; Num novaGatewaySubmissionFee; Num novaRouterSubmissionFee;
       Num maxGas; Num maxGas; Num novaGasPrice;
       Num valueForNovaGateway; Num valueForNovaRouter; Signer Eth;
       Num (valueForNovaGateway + valueForNovaRouter + extra)] ;;
  wait net Eth "registerTokenOnL2" ;;
  _ <- request net (Read Nova "l1RegistrationTxReceipt" "getL1ToL2Messages" []) ;;
  ret tt.

Definition postDeploymentL1TokenTasks
    (l1TokenProxy l1ProxyAdminAddress novaTokenAddress : string) : Script unit :=
  registerTokenOnNova l1TokenProxy l1ProxyAdminAddress novaTokenAddress ;;
  awaitRedeemed.

Definition postDeploymentL2TokenTasks (l2DeployResult : L2DeployedEventObject)
  : Script unit :=
  send net Arb (l2_token l2DeployResult) "transferOwnership"
      [Addr (l2_executor l2DeployResult)] ;;
  send net Arb (l2_token l2DeployResult) "transfer"
      [Addr (l2_arbTreasury l2DeployResult); Const "L2_NUM_OF_TOKENS_FOR_TREASURY"].

(** The inputs of a run that are read once and never change:
    [GovernanceConstants.L2_NUM_OF_RECIPIENT_BATCHES_ALREADY_SET], the
    contents of [files/recipients.json], and the budget of iterations
    granted to each loop of [setClaimRecipients]. *)
Variable alreadySet : nat.
Variable tokenRecipientsByPoints : Js.object Z.
Variable budget : nat.

Definition deployAndInitTokenDistributor (l2DeployResult : L2DeployedEventObject)
  : Script unit :=
  tokenDistributor <- deploy net Arb "TokenDistributor"
      [Addr (l2_token l2DeployResult); Const "L2_SWEEP_RECECIVER"; Signer Arb;
       Const "L2_CLAIM_PERIOD_START"; Const "L2_CLAIM_PERIOD_END"] ;;
  wait net Arb "deployed" ;;
  store "l2TokenDistributor" tokenDistributor ;;
  sendAndWait net Arb (l2_token l2DeployResult) "transfer"
      [Addr tokenDistributor; Const "L2_NUM_OF_TOKENS_FOR_CLAIMING"] ;;
  setClaimRecipients net alreadySet tokenRecipientsByPoints budget tokenDistributor ;;
  sendAndWait net Arb tokenDistributor "transferOwnership"
      [Addr (l2_executor l2DeployResult)] ;;
  ret tt.

(** *** The sequencer ([deployGovernance], 104-179) *)

(** Everything before the final [writeAddresses()]. *)
Definition deploySteps : Script unit :=
  getDeployers net ;;
  l1UpgradeExecutorLogic <- deployL1LogicContracts ;;
  logic <- deployL2LogicContracts ;;
  l1GovernanceFactory <- deployL1GovernanceFactory ;;
  l1TokenProxy <- deployAndInitL1Token ;;
  l2GovernanceFactory <- deployL2GovernanceFactory logic ;;
  nova <- deployNovaUpgradeExecutor ;;
  novaToken <- deployTokenToNova (fst nova) l1TokenProxy ;;
  l2DeployResult <- initL2Governance l2GovernanceFactory l1TokenProxy ;;
  l1DeployResult <- initL1Governance l1GovernanceFactory l1UpgradeExecutorLogic
                      l2DeployResult ;;
  setExecutorRoles l1DeployResult l2GovernanceFactory (snd nova) (fst nova) ;;
  postDeploymentL1TokenTasks l1TokenProxy (l1_proxyAdmin l1DeployResult) novaToken ;;
  postDeploymentL2TokenTasks l2DeployResult ;;
  deployAndInitTokenDistributor l2DeployResult.

Definition deployGovernance : Script unit :=
  deploySteps ;;
  writeAddresses.

End Steps.

(** The module starts with [let deployedContracts = {}]; [main] runs the
    sequencer in a fresh process on the files left on disk. *)
Definition freshProcess (files : Js.object string) : World :=
  {| deployedContracts := []; disk := files; trace := []; requests := 0 |}.

Definition main (net : Chains) (alreadySet : nat) (tokenRecipientsByPoints : Js.object Z)
    (budget : nat) (files : Js.object string) : Outcome unit * World :=
  deployGovernance net alreadySet tokenRecipientsByPoints budget (freshProcess files).

(** ** Environment and signers (providerSetup.ts) *)

Definition andThen {A B} (o : Outcome A) (k : A -> Outcome B) : Outcome B :=
  match o with
  | Returned a => k a
  | Threw message => Threw message
  | OutOfFuel => OutOfFuel
  end.

Declare Scope outcome_scope.
Delimit Scope outcome_scope with outcome.
Notation "x <- m ;; k" := (andThen m (fun x => k))
  (at level 61, m at next level, right associativity) : outcome_scope.
Notation "m ;; k" := (andThen m (fun _ => k))
  (at level 61, right associativity) : outcome_scope.

(** [if (condition) throw new Error(message)]. *)
Definition throwIf (condition : bool) (message : string) : Outcome unit :=
  if condition then Threw message else Returned tt.

Definition ETH_CHAIN_ID : Z := 1.
Definition ARBITRUM_ONE_CHAIN_ID : Z := 42161.
Definition ARBITRUM_NOVA_CHAIN_ID : Z := 42170.

(** [envVars]: each field is [process.env[NAME]], [None] when unset. *)
Record EnvVars : Type := {
  env_isLocalDeployment : option string;       (* DEPLOY_TO_LOCAL_ENVIRONMENT *)
  env_ethRpc : option string;
  env_arbRpc : option string;
  env_novaRpc : option string;
  env_ethDeployerKey : option string;
  env_arbDeployerKey : option string;
  env_novaDeployerKey : option string;
  env_deployerConfigLocation : option string;
  env_vestedRecipientsLocation : option string;
  env_daoRecipientsLocation : option string;
  env_claimRecipientsLocation : option string;
  env_deployedContractsLocation : option string;
  env_arbTransferAssetsTXsLocation : option string;
  env_novaTransferAssetsTXsLocation : option string
}.

(** [x == undefined]. *)
Definition isUndefined (x : option string) : bool :=
  match x with None => true | Some _ => false end.

(** [!x] for a string or undefined: the empty string is falsy too. *)
Definition isFalsy (x : option string) : bool :=
  match x with
  | None => true
  | Some s => String.eqb s EmptyString
  end.

Definition missingFile (location : option string) : string :=
  ("Missing file at " ++ match location with Some l => l | None => "undefined" end)%string.

(** [!fs.existsSync(location)], reached only when [location] is set. *)
Definition notOnDisk (existsSync : string -> bool) (location : option string) : bool :=
  match location with
  | Some l => negb (existsSync l)
  | None => true
  end.

(** What the script reads from its host besides the chains' contracts:
    files, the helpers of [testUtils], [deployerConfig] and [testSetup], and
    the networks behind the three RPC endpoints. *)
Record Host : Type := {
  existsSync : string -> bool;
  loadRecipients : option string -> Outcome unit;
  readClaimRecipients : option string -> Outcome (Js.object Z);
  getProvidersAndSetupNetworks : Layer -> Outcome unit;
  hasProvider : Layer -> bool;
  chainId : Layer -> Outcome Z;
  loadDeployerConfig : option string -> Outcome unit;
  getL2Network : Layer -> Outcome unit
}.

Inductive Mode : Type := LocalTest | Production.

Section ProviderSetup.

Variable conf : EnvVars.
Variable host : Host.

(** providerSetup.ts 56-92. *)
Definition checkEnvVars : Outcome unit :=
  (throwIf (isUndefined (env_isLocalDeployment conf)) "Missing isLocalDeployment in env vars" ;;
   throwIf (isUndefined (env_ethRpc conf)) "Missing ethRpc in env vars" ;;
   throwIf (isUndefined (env_arbRpc conf)) "Missing arbRpc in env vars" ;;
   throwIf (isUndefined (env_novaRpc conf)) "Missing novaRpc in env vars" ;;
   throwIf (isFalsy (env_isLocalDeployment conf) && isUndefined (env_ethDeployerKey conf))
     "Missing ethDeployerKey in env vars" ;;
   throwIf (isUndefined (env_arbDeployerKey conf)) "Missing arbDeployerKey in env vars" ;;
   throwIf (isUndefined (env_novaDeployerKey conf)) "Missing novaDeployerKey in env vars" ;;
   throwIf (isUndefined (env_deployerConfigLocation conf))
     "Missing deployerConfigLocation in env vars" ;;
   throwIf (notOnDisk (existsSync host) (env_deployerConfigLocation conf))
     (missingFile (env_deployerConfigLocation conf)) ;;
   throwIf (isUndefined (env_vestedRecipientsLocation conf))
     "Missing vestedRecipientsLocation in env vars" ;;
   throwIf (notOnDisk (existsSync host) (env_vestedRecipientsLocation conf))
     (missingFile (env_vestedRecipientsLocation conf)) ;;
   throwIf (isUndefined (env_daoRecipientsLocation conf))
     "Missing daoRecipientsLocation in env vars" ;;
   throwIf (notOnDisk (existsSync host) (env_daoRecipientsLocation conf))
     (missingFile (env_daoRecipientsLocation conf)) ;;
   throwIf (isUndefined (env_claimRecipientsLocation conf))
     "Missing claimRecipientsLocation in env vars" ;;
   throwIf (notOnDisk (existsSync host) (env_claimRecipientsLocation conf))
     (missingFile (env_claimRecipientsLocation conf)) ;;
   throwIf (isUndefined (env_deployedContractsLocation conf))
     "Missing deployedContractsLocation in env vars" ;;
   throwIf (isUndefined (env_arbTransferAssetsTXsLocation conf))
     "Missing arbTransferAssetsTXsLocation in env vars" ;;
   throwIf (isUndefined (env_novaTransferAssetsTXsLocation conf))
     "Missing novaTransferAssetsTXsLocation in env vars")%outcome.

(** providerSetup.ts 94-98; the signer itself is not represented. *)
Definition getSigner (provider : bool) (key : option string) : Outcome unit :=
  throwIf (isFalsy key && negb provider) "Provide at least one of key or provider.".

Definition loadDaoRecipients : Outcome unit :=
  (checkEnvVars ;; loadRecipients host (env_daoRecipientsLocation conf))%outcome.

Definition loadVestedRecipients : Outcome unit :=
  (checkEnvVars ;; loadRecipients host (env_vestedRecipientsLocation conf))%outcome.

(** providerSetup.ts 114-123.  [tokenAmounts[i]] is [None] (undefined)
    past the end of the array.  [mapPointsToAmounts] is the function of
    that name in the deployment script. *)
Definition loadClaimRecipients : Outcome (Js.object (option Z)) :=
  (checkEnvVars ;;
   tokenRecipientsByPoints <- readClaimRecipients host (env_claimRecipientsLocation conf) ;;
   mapped <- mapPointsToAmounts tokenRecipientsByPoints ;;
   let tokenRecipients := fst mapped in
   let tokenAmounts := snd mapped in
   Returned (Js.fromEntries
               (Js.mapi (fun tr i => (tr, nth_error tokenAmounts i)) tokenRecipients)))%outcome.

(** providerSetup.ts 384-386: [envVars.isLocalDeployment !== "false"]. *)
Definition isLocalDeployment : bool :=
  match env_isLocalDeployment conf with
  | Some value => negb (String.eqb value "false")
  | None => true
  end.

(** Lines 242-259: a production chain must not answer in the test setup. *)
Definition checkNotProduction (on : Layer) (production : Z) (message : string)
  : Outcome unit :=
  if hasProvider host on then
    (id <- chainId host on ;; throwIf (id =? production)%Z message)%outcome
  else Returned tt.

(** Lines 282-293: the production chain must answer. *)
Definition checkProduction (on : Layer) (production : Z) (message : string)
  : Outcome unit :=
  (id <- chainId host on ;; throwIf (negb (id =? production)%Z) message)%outcome.

Definition localChainChecks : Outcome unit :=
  (checkNotProduction Eth ETH_CHAIN_ID "Production chain ID used in test env for L1" ;;
   checkNotProduction Arb ARBITRUM_ONE_CHAIN_ID "Production chain ID used in test env for L2" ;;
   checkNotProduction Nova ARBITRUM_NOVA_CHAIN_ID
     "Production chain ID used in test env for Nova")%outcome.

Definition productionChainChecks : Outcome unit :=
  (checkProduction Eth ETH_CHAIN_ID
     "Production chain ID should be used in production mode for L1" ;;
   checkProduction Arb ARBITRUM_ONE_CHAIN_ID
     "Production chain ID should be used in production mode for L2" ;;
   checkProduction Nova ARBITRUM_NOVA_CHAIN_ID
     "Production chain ID should be used in production mode for Nova")%outcome.

Definition localDeployment : Outcome Mode :=
  (getProvidersAndSetupNetworks host Arb ;;
   getProvidersAndSetupNetworks host Nova ;;
   getSigner (hasProvider host Eth) (env_ethDeployerKey conf) ;;
   getSigner (hasProvider host Arb) (env_arbDeployerKey conf) ;;
   getSigner (hasProvider host Nova) (env_novaDeployerKey conf) ;;
   localChainChecks ;;
   loadDeployerConfig host (env_deployerConfigLocation conf) ;;
   Returned LocalTest)%outcome.

Definition productionDeployment : Outcome Mode :=
  (productionChainChecks ;;
   getSigner true (env_ethDeployerKey conf) ;;
   getSigner true (env_arbDeployerKey conf) ;;
   getSigner true (env_novaDeployerKey conf) ;;
   loadDeployerConfig host (env_deployerConfigLocation conf) ;;
   getL2Network host Arb ;;
   getL2Network host Nova ;;
   Returned Production)%outcome.

(** providerSetup.ts 193-317: the mode the run is set up in, with the
    claim recipients it loaded. *)
Definition getDeployersAndConfig : Outcome (Mode * Js.object (option Z)) :=
  (checkEnvVars ;;
   loadDaoRecipients ;;
   loadVestedRecipients ;;
   claimRecipients <- loadClaimRecipients ;;
   mode <- (if isLocalDeployment then localDeployment else productionDeployment) ;;
   Returned (mode, claimRecipients))%outcome.

End ProviderSetup.

(** ** Observations on a run *)

(** One sample of the gas price on Arbitrum One. *)
Definition sample : Event := Read Arb "provider" "getGasPrice" [].

(** The world after [n] rounds of the polling loop: each round sleeps thirty
    seconds and samples the gas price once. *)
Fixpoint polled (n : nat) (w : World) : World :=
  match n with
  | 0 => w
  | S n' => polled n' (answered (record sample (record (Sleep 30000) w)))
  end.

(** The batches handed to [setRecipients], in order of submission. *)
Definition batchOf (e : Event) : list (list string * list Z) :=
  match e with
  | Send Arb _ method [Addrs recipients; Nums amounts] =>
      if String.eqb method "setRecipients" then [(recipients, amounts)] else []
  | _ => []
  end.

Definition submittedBatches (t : list Event) : list (list string * list Z) :=
  flat_map batchOf t.

(** The slices the specification asks for, from batch index [start] on:
    the full slices below [floor(len / batchSize)], then the remainder when
    the length is not a multiple of the batch size. *)
Definition expectedSlices {A} (batchSize start : nat) (l : list A) : list (list A) :=
  let numBatches := length l / batchSize in
  map (fun i => Js.slice (i * batchSize) ((i + 1) * batchSize) l)
      (seq start (numBatches - start))
  ++ (if (start <=? numBatches)%nat && negb (length l =? numBatches * batchSize)%nat
      then [Js.sliceFrom (numBatches * batchSize) l]
      else []).

(** Chains on which every request goes through at one constant gas price. *)
Definition steadyChains (gasPrice : Z) : Chains :=
  {| confirms := fun _ => true;
     address := fun n => ("0xc" ++ Js.toString (Z.of_nat n))%string;
     number := fun _ => gasPrice;
     eventArg := fun n field => ("0xe" ++ Js.toString (Z.of_nat n) ++ field)%string;
     status := fun _ => REDEEMED;
     deployers := Returned tt |}.

(** Chains whose first samples of the gas price are [samples] and that
    stay at the last price given. *)
Definition sampledChains (samples : list Z) (last : Z) : Chains :=
  {| confirms := fun _ => true;
     address := fun n => ("0xc" ++ Js.toString (Z.of_nat n))%string;
     number := fun n => nth n samples last;
     eventArg := fun n field => ("0xe" ++ Js.toString (Z.of_nat n) ++ field)%string;
     status := fun _ => REDEEMED;
     deployers := Returned tt |}.

(** A recipient file of [n] accounts with points from 3 to 15. *)
Definition recipientFile (n : nat) : Js.object Z :=
  map (fun i => (("0xa" ++ Js.toString (Z.of_nat i))%string, (3 + Z.of_nat (i mod 13))%Z))
      (seq 0 n).

(** The amounts the mapper gives for a recipient file ([[]] when it throws). *)
Definition amountsOf (entries : Js.object Z) : list Z :=
  match mapPointsToAmounts entries with
  | Returned (_, amounts) => amounts
  | _ => []
  end.

(** Registration of the first [n] accounts on steady chains at the base
    price, from batch 0, in a fresh process. *)
Definition calmRun (n : nat) : Outcome unit * World :=
  setClaimRecipients (steadyChains BASE_GAS_PRICE) 0 (recipientFile n) 3 "0xd"
    (freshProcess []).

(** A script that submits no batch, however it ends. *)
Definition submitsNothing {A} (m : Script A) : Prop :=
  forall w, submittedBatches (trace (snd (m w))) = submittedBatches (trace w).

(** A script that leaves a part of the world as it found it, however it
    ends. *)
Definition preserves {X A} (part : World -> X) (m : Script A) : Prop :=
  forall w, part (snd (m w)) = part w.

(** A part of the world that requests and sleeps do not touch. *)
Definition offChain {X} (part : World -> X) : Prop :=
  (forall e w, part (record e w) = part w) /\ (forall w, part (answered w) = part w).

(** Two worlds in which the same has been asked of the outside. *)
Definition sameRequests (w1 w2 : World) : Prop :=
  trace w1 = trace w2 /\ requests w1 = requests w2.

(** A script whose outcome and requests do not depend on
    [deployedContracts] or on the files on disk. *)
Definition blind {A} (m : Script A) : Prop :=
  forall w1 w2,
    sameRequests w1 w2 ->
    fst (m w1) = fst (m w2) /\ sameRequests (snd (m w1)) (snd (m w2)).

(** ** Sample inputs *)

Definition sampleRecipients : Js.object Z :=
  [("0xaa", 3); ("0xbb", 7); ("0xcc", 15)]%Z.

Definition sampleBadRecipients : Js.object Z :=
  [("0xaa", 3); ("0xbb", 16); ("0xcc", 2)]%Z.

(** An environment with every variable set, but for
    [DEPLOY_TO_LOCAL_ENVIRONMENT], which is given. *)
Definition sampleEnv (isLocalDeployment : option string) : EnvVars :=
  {| env_isLocalDeployment := isLocalDeployment;
     env_ethRpc := Some "http://localhost:8545";
     env_arbRpc := Some "http://localhost:8547";
     env_novaRpc := Some "http://localhost:8548";
     env_ethDeployerKey := Some "0x01";
     env_arbDeployerKey := Some "0x02";
     env_novaDeployerKey := Some "0x03";
     env_deployerConfigLocation := Some "files/local/deployConfig.json";
     env_vestedRecipientsLocation := Some "files/local/vestedRecipients.json";
     env_daoRecipientsLocation := Some "files/local/daoRecipients.json";
     env_claimRecipientsLocation := Some "files/local/claimRecipients.json";
     env_deployedContractsLocation := Some "files/local/deployedContracts.json";
     env_arbTransferAssetsTXsLocation := Some "files/local/arbTransferAssetsTXs.json";
     env_novaTransferAssetsTXsLocation := Some "files/local/novaTransferAssetsTXs.json" |}.

(** A host with every file in place and three local test chains. *)
Definition sampleHost (claimFile : Js.object Z) : Host :=
  {| existsSync := fun _ => true;
     loadRecipients := fun _ => Returned tt;
     readClaimRecipients := fun _ => Returned claimFile;
     getProvidersAndSetupNetworks := fun _ => Returned tt;
     hasProvider := fun _ => true;
     chainId := fun on => Returned (match on with
                                    | Eth => 1337
                                    | Arb => 412346
                                    | Nova => 412347
                                    end)%Z;
     loadDeployerConfig := fun _ => Returned tt;
     getL2Network := fun _ => Returned tt |}.

(** Chains on which the first [n] requests go through and the next throws. *)
Definition failingAt (n : nat) : Chains :=
  {| confirms := fun k => (k <? n)%nat;
     address := fun k => ("0xc" ++ Js.toString (Z.of_nat k))%string;
     number := fun _ => BASE_GAS_PRICE;
     eventArg := fun k field => ("0xe" ++ Js.toString (Z.of_nat k) ++ field)%string;
     status := fun _ => REDEEMED;
     deployers := Returned tt |}.

(** A run of the sequencer in which the steps up to the L1 governance
    factory go through (eight requests) and the next request throws. *)
Definition crashedRun : Outcome unit * World :=
  main (failingAt 8) 0 (recipientFile 5) 3 [].

(** A complete run on steady chains. *)
Definition completeRun : Outcome unit * World :=
  main (steadyChains BASE_GAS_PRICE) 0 (recipientFile 5) 3 [].

(** Registration of 250 accounts in which batch 0 is confirmed and the
    submission of batch 1 throws, and the rerun in a new process on the
    files the first run left. *)
Definition interruptedRegistration : Outcome unit * World :=
  setClaimRecipients (failingAt 4) 0 (recipientFile 250) 3 "0xd" (freshProcess []).

Definition rerunRegistration : Outcome unit * World :=
  setClaimRecipients (steadyChains BASE_GAS_PRICE) 0 (recipientFile 250) 3 "0xd"
    (freshProcess (disk (snd interruptedRegistration))).

(** The addresses of the steps up to the initialisation of the L2
    governance, as an earlier run would have recorded them. *)
Definition stepsOneToEight : Js.object string :=
  map (fun key => (key, ("0x" ++ key)%string))
    [ "l1UpgradeExecutorLogic"; "l2TimelockLogic"; "l2GovernorLogic";
      "l2FixedDelegateLogic"; "l2TokenLogic"; "l2UpgradeExecutorLogic";
      "l1GovernanceFactory"; "l1TokenLogic"; "l1TokenProxy"; "l2GovernanceFactory";
      "novaProxyAdmin"; "novaUpgradeExecutorLogic"; "novaUpgradeExecutorProxy";
      "novaTokenLogic"; "novaTokenProxy";
      "l2CoreGoverner"; "l2CoreTimelock"; "l2Executor"; "l2ProxyAdmin"; "l2Token";
      "l2TreasuryGoverner"; "l2ArbTreasury" ].

(** A world in which that progress is both in [deployedContracts] and in
    the progress file. *)
Definition resumedWorld : World :=
  {| deployedContracts := stepsOneToEight;
     disk := [(DEPLOYED_CONTRACTS_FILE_NAME, stringify stepsOneToEight)];
     trace := [];
     requests := 0 |}.

Definition resumedRun : Outcome unit * World :=
  deployGovernance (steadyChains BASE_GAS_PRICE) 0 (recipientFile 5) 3 resumedWorld.

(** The world after the two [waitForStatus] calls of the L1 token step. *)
Definition bothAwaited (w : World) : World :=
  answered (record (Wait Nova "l1ToL2Msgs[1]")
              (answered (record (Wait Nova "l1ToL2Msgs[0]") w))).

(** Chains on which every request goes through and the two retryable
    messages of the L1 token step (requests 12 and 13 of the step) end in
    the given statuses. *)
Definition redeemingChains (setToken setGateways : L1ToL2MessageStatus) : Chains :=
  {| confirms := fun _ => true;
     address := fun k => ("0xc" ++ Js.toString (Z.of_nat k))%string;
     number := fun _ => BASE_GAS_PRICE;
     eventArg := fun k field => ("0xe" ++ Js.toString (Z.of_nat k) ++ field)%string;
     status := fun k => if (k =? 12)%nat then setToken else setGateways;
     deployers := Returned tt |}.

(** The L1 token step on its own, in a fresh process. *)
Definition tokenTasksRun (setToken setGateways : L1ToL2MessageStatus)
  : Outcome unit * World :=
  postDeploymentL1TokenTasks (redeemingChains setToken setGateways)
    "0xproxy" "0xadmin" "0xnova" (freshProcess []).

(** A progress record before and after one more step, and the disk that
    holds the first. *)
Definition cacheBefore : DeployProgressCache :=
  [("l1UpgradeExecutorLogic", CacheString "0xaaaa")].

Definition cacheAfter : DeployProgressCache :=
  [("l1UpgradeExecutorLogic", CacheString "0xaaaa"); ("step3Executed", CacheBool true)].

Definition progressLocation : string := "files/local/deployedContracts.json".

Definition diskBefore : Js.object string :=
  [(progressLocation, stringifyIndented cacheBefore)].

(** The mode of a set-up, without the recipients. *)
Definition fst_mode {A} (o : Outcome (Mode * A)) : Outcome Mode :=
  andThen o (fun r => Returned (fst r)).

(** The full slice of batch index [i]. *)
Definition fullSlice {A} (batchSize : nat) (l : list A) (i : nat) : list A :=
  Js.slice (i * batchSize) ((i + 1) * batchSize) l.

(** A script that asks nothing more once a request has thrown, and throws
    that failure: every request but its last went through, and a request
    that did not go through ends it with [requestFailed]. *)
Definition failFast (net : Chains) {A} (m : Script A) : Prop :=
  forall w,
    requests w <= requests (snd (m w))
    /\ (forall k, requests w <= k -> S k < requests (snd (m w)) -> confirms net k = true)
    /\ (forall k, requests w <= k < requests (snd (m w)) ->
                  confirms net k = false -> fst (m w) = Threw requestFailed).

(** [deployedContracts[key] = ...] on the list of an object's keys. *)
Definition addKey (keys : list string) (key : string) : list string :=
  if existsb (String.eqb key) keys then keys else keys ++ [key].

(** A script that, when it returns, has assigned the given keys of
    [deployedContracts], in this order, and no other. *)
Definition records (keys : list string) {A} (m : Script A) : Prop :=
  forall w a w',
    m w = (Returned a, w') ->
    Js.keys (deployedContracts w')
    = fold_left addKey keys (Js.keys (deployedContracts w)).

(** The keys the sequencer assigns, in order. *)
Definition recordedKeys : list string :=
  [ "l1UpgradeExecutorLogic"; "l2TimelockLogic"; "l2GovernorLogic";
    "l2FixedDelegateLogic"; "l2TokenLogic"; "l2UpgradeExecutorLogic";
    "l1GovernanceFactory"; "l1TokenLogic"; "l1TokenProxy"; "l2GovernanceFactory";
    "novaProxyAdmin"; "novaUpgradeExecutorLogic"; "novaUpgradeExecutorProxy";
    "novaTokenLogic"; "novaTokenProxy";
    "l2CoreGoverner"; "l2CoreTimelock"; "l2Executor"; "l2ProxyAdmin"; "l2Token";
    "l2TreasuryGoverner"; "l2ArbTreasury";
    "l1Executor"; "l1ProxyAdmin"; "l1Timelock";
    "l2TokenDistributor" ].

(** [conf] without [ETH_KEY]. *)
Definition withoutEthKey (conf : EnvVars) : EnvVars :=
  {| env_isLocalDeployment := env_isLocalDeployment conf;
     env_ethRpc := env_ethRpc conf;
     env_arbRpc := env_arbRpc conf;
     env_novaRpc := env_novaRpc conf;
     env_ethDeployerKey := None;
     env_arbDeployerKey := env_arbDeployerKey conf;
     env_novaDeployerKey := env_novaDeployerKey conf;
     env_deployerConfigLocation := env_deployerConfigLocation conf;
     env_vestedRecipientsLocation := env_vestedRecipientsLocation conf;
     env_daoRecipientsLocation := env_daoRecipientsLocation conf;
     env_claimRecipientsLocation := env_claimRecipientsLocation conf;
     env_deployedContractsLocation := env_deployedContractsLocation conf;
     env_arbTransferAssetsTXsLocation := env_arbTransferAssetsTXsLocation conf;
     env_novaTransferAssetsTXsLocation := env_novaTransferAssetsTXsLocation conf |}.

(** A variable that is set, and a location that is set and on disk. *)
Definition isSet (x : option string) : Prop := x <> None.

Definition onDisk (host : Host) (location : option string) : Prop :=
  exists l, location = Some l /\ existsSync host l = true.

(** A host like [sampleHost] whose three chains are the production ones. *)
Definition productionHost (claimFile : Js.object Z) : Host :=
  {| existsSync := fun _ => true;
     loadRecipients := fun _ => Returned tt;
     readClaimRecipients := fun _ => Returned claimFile;
     getProvidersAndSetupNetworks := fun _ => Returned tt;
     hasProvider := fun _ => true;
     chainId := fun on => Returned (match on with
                                    | Eth => ETH_CHAIN_ID
                                    | Arb => ARBITRUM_ONE_CHAIN_ID
                                    | Nova => ARBITRUM_NOVA_CHAIN_ID
                                    end);
     loadDeployerConfig := fun _ => Returned tt;
     getL2Network := fun _ => Returned tt |}.

(** The production identifier of a chain. *)
Definition productionChainId (on : Layer) : Z :=
  match on with
  | Eth => ETH_CHAIN_ID
  | Arb => ARBITRUM_ONE_CHAIN_ID
  | Nova => ARBITRUM_NOVA_CHAIN_ID
  end.

(** A script all of whose requests and sleeps, however it ends, satisfy [P]. *)
Definition emits (P : Event -> Prop) {A} (m : Script A) : Prop :=
  forall w, exists added, trace (snd (m w)) = trace w ++ added /\ Forall P added.

(** What the registration of the recipients may ask for: a sample of the gas
    price on Arbitrum One, a sleep of one or thirty seconds, and
    [setRecipients] on the distributor with its confirmation. *)
Definition registrationEvent (tokenDistributor : string) (e : Event) : Prop :=
  e = sample
  \/ e = Sleep 1000
  \/ e = Sleep 30000
  \/ e = Wait Arb "setRecipients"
  \/ exists recipients amounts,
       e = Send Arb tokenDistributor "setRecipients" [Addrs recipients; Nums amounts].


(** * Properties *)

(** ** Recipient mapper *)

(** Membership in a list that is written out. *)
Ltac in_list := repeat (first [left; reflexivity | right]).

Lemma amountForPoints_table (points amount : Z) :
  amountForPoints points = Some amount <-> tableAmount points amount.
Proof.
  split.
  - intros H. unfold amountForPoints, tableAmount in *.
    remember parseEther as toWei eqn:HtoWei.
    destruct points as [|p|p]; try discriminate;
      do 5 (try (destruct p as [p|p|]; try discriminate));
      injection H as <-; eexists;
      (split; [in_list | reflexivity]).
  - intros [tokens [Hin ->]]. cbn in Hin.
    repeat (destruct Hin as [Hin|Hin]; [injection Hin as <- <-; reflexivity|]).
    contradiction.
Qed.

Lemma amountForPoints_valid (points : Z) :
  validPoints points <-> exists amount, amountForPoints points = Some amount.
Proof.
  split.
  - intros H. cbn in H.
    repeat (destruct H as [H|H]; [subst points; eexists; reflexivity|]).
    contradiction.
  - intros [amount H]. apply amountForPoints_table in H.
    destruct H as [tokens [Hin _]]. unfold validPoints.
    change points with (fst (points, tokens)). now apply in_map.
Qed.

Lemma amountForPoints_invalid (points : Z) :
  ~ validPoints points -> amountForPoints points = None.
Proof.
  intros H. destruct (amountForPoints points) eqn:E; [|reflexivity].
  exfalso. apply H. apply amountForPoints_valid. now exists z.
Qed.

Lemma mapPointsToAmounts_from_valid (entries : Js.object Z) :
  Forall (fun e => validPoints (snd e)) entries ->
  forall tokenRecipients tokenAmounts,
  exists amounts,
    mapPointsToAmounts_from entries tokenRecipients tokenAmounts
      = Returned (tokenRecipients ++ map fst entries, tokenAmounts ++ amounts)
    /\ Forall2 (fun e amount => tableAmount (snd e) amount) entries amounts.
Proof.
  induction 1 as [|[key points] rest Hvalid _ IH]; intros tokenRecipients tokenAmounts.
  - exists []. cbn. now rewrite !app_nil_r.
  - cbn in Hvalid. apply amountForPoints_valid in Hvalid as [amount Hamount].
    destruct (IH (tokenRecipients ++ [key]) (tokenAmounts ++ [amount])) as [amounts [Hrun Hall]].
    exists (amount :: amounts). cbn. rewrite Hamount, Hrun, <- !app_assoc. cbn.
    split; [reflexivity|]. constructor; [|exact Hall].
    now apply amountForPoints_table.
Qed.

Lemma mapPointsToAmounts_from_invalid (entries : Js.object Z) :
  Exists (fun e => ~ validPoints (snd e)) entries ->
  forall tokenRecipients tokenAmounts,
  exists key points,
    In (key, points) entries /\ ~ validPoints points
    /\ mapPointsToAmounts_from entries tokenRecipients tokenAmounts
       = Threw (incorrectPoints key points).
Proof.
  induction entries as [|[key points] rest IH]; intros Hex tokenRecipients tokenAmounts.
  - inversion Hex.
  - cbn. destruct (amountForPoints points) as [amount|] eqn:Hamount.
    + assert (Hrest : Exists (fun e => ~ validPoints (snd e)) rest).
      { inversion Hex as [? ? Hbad|]; subst; [|assumption].
        exfalso. apply Hbad. apply amountForPoints_valid. now exists amount. }
      destruct (IH Hrest (tokenRecipients ++ [key]) (tokenAmounts ++ [amount]))
        as [key' [points' [Hin [Hbad Hrun]]]].
      exists key', points'. auto.
    + exists key, points. repeat split; auto.
      intros Hvalid. apply amountForPoints_valid in Hvalid as [amount Hsome]. congruence.
Qed.

(** C3.  On a recipient file all of whose points are in the table (3 to 15)
    the mapper returns the accounts and, for each, the table amount
    (3000, 4500, 6000, 9000, 10500 or 12000 tokens of 18 decimals); on a file
    with an account whose points are outside the table it throws an error
    that names such an account, and returns no arrays. *)
Theorem mapPointsToAmounts_table (entries : Js.object Z) :
  (Forall (fun e => validPoints (snd e)) entries ->
   exists amounts,
     mapPointsToAmounts entries = Returned (map fst entries, amounts)
     /\ Forall2 (fun e amount => tableAmount (snd e) amount) entries amounts)
  /\
  (Exists (fun e => ~ validPoints (snd e)) entries ->
   exists key points,
     In (key, points) entries /\ ~ validPoints points
     /\ mapPointsToAmounts entries
        = Threw ("Incorrect number of points for account " ++ key ++ ": "
                 ++ Js.toString points)%string).
Proof.
  split; intros H.
  - destruct (mapPointsToAmounts_from_valid entries H [] []) as [amounts [Hrun Hall]].
    exists amounts. split; [exact Hrun | exact Hall].
  - exact (mapPointsToAmounts_from_invalid entries H [] []).
Qed.

Lemma mapPointsToAmounts_table_witness :
  (exists amounts,
     mapPointsToAmounts sampleRecipients = Returned (map fst sampleRecipients, amounts)
     /\ Forall2 (fun e amount => tableAmount (snd e) amount) sampleRecipients amounts)
  /\
  (exists key points,
     In (key, points) sampleBadRecipients /\ ~ validPoints points
     /\ mapPointsToAmounts sampleBadRecipients
        = Threw ("Incorrect number of points for account " ++ key ++ ": "
                 ++ Js.toString points)%string).
Proof.
  split.
  - apply (proj1 (mapPointsToAmounts_table sampleRecipients)).
    unfold sampleRecipients.
    repeat (apply Forall_cons; [unfold validPoints; in_list|]). apply Forall_nil.
  - apply (proj2 (mapPointsToAmounts_table sampleBadRecipients)).
    apply Exists_cons_tl, Exists_cons_hd. cbn. intuition discriminate.
Defined.

Example mapPointsToAmounts_sample :
  mapPointsToAmounts sampleRecipients
  = Returned (["0xaa"; "0xbb"; "0xcc"],
              [3000 * 10 ^ 18; 10500 * 10 ^ 18; 12000 * 10 ^ 18]%Z).
Proof. reflexivity. Qed.

Example mapPointsToAmounts_bad_sample :
  mapPointsToAmounts sampleBadRecipients
  = Threw "Incorrect number of points for account 0xbb: 16".
Proof. reflexivity. Qed.

(** ** Objects built from entries *)

Lemma set_fresh {V} (o : Js.object V) (key : string) (value : V) :
  ~ In key (Js.keys o) -> Js.set o key value = o ++ [(key, value)].
Proof.
  induction o as [|[k v] rest IH]; cbn; intros Hfresh; [reflexivity|].
  destruct (String.eqb_spec k key) as [->|Hne].
  - exfalso. apply Hfresh. now left.
  - rewrite IH; [reflexivity|]. intros Hin. apply Hfresh. now right.
Qed.

Lemma fold_set_fresh {V} (entries : list (string * V)) :
  forall o : Js.object V,
  NoDup (Js.keys o ++ map fst entries) ->
  fold_left (fun o e => Js.set o (fst e) (snd e)) entries o = o ++ entries.
Proof.
  induction entries as [|[k v] rest IH]; intros o Hnodup; cbn.
  - now rewrite app_nil_r.
  - cbn in Hnodup. rewrite set_fresh.
    + rewrite IH.
      * now rewrite <- app_assoc.
      * unfold Js.keys. rewrite map_app. cbn. rewrite <- app_assoc. exact Hnodup.
    + apply NoDup_remove_2 in Hnodup. intros Hin. apply Hnodup.
      apply in_or_app. now left.
Qed.

Lemma fromEntries_unique {V} (entries : list (string * V)) :
  NoDup (map fst entries) -> Js.fromEntries entries = entries.
Proof. intros H. unfold Js.fromEntries. now rewrite fold_set_fresh. Qed.

Lemma get_unique {V} (o : Js.object V) (key : string) (value : V) :
  NoDup (Js.keys o) -> In (key, value) o -> Js.get o key = Some value.
Proof.
  induction o as [|[k v] rest IH]; cbn; intros Hnodup Hin; [contradiction|].
  inversion Hnodup as [|? ? Hfresh Hrest]; subst.
  destruct Hin as [Heq|Hin].
  - injection Heq as -> ->. now rewrite String.eqb_refl.
  - destruct (String.eqb_spec k key) as [->|Hne].
    + exfalso. apply Hfresh. change key with (fst (key, value)). now apply in_map.
    + now apply IH.
Qed.

Lemma mapi_from_nth {A} (amounts : list A) (keys : list string) :
  forall before,
  length keys = length amounts ->
  Js.mapi_from (length before) (fun tr i => (tr, nth_error (before ++ amounts) i)) keys
  = combine keys (map Some amounts).
Proof.
  revert amounts. induction keys as [|key keys IH]; intros [|a amounts] before Hlen;
    try discriminate; cbn; [reflexivity|].
  rewrite nth_error_app2 by lia. rewrite Nat.sub_diag. cbn. f_equal.
  specialize (IH amounts (before ++ [a])).
  rewrite length_app, Nat.add_1_r, <- app_assoc in IH. cbn in IH.
  apply IH. now injection Hlen.
Qed.

Lemma Forall2_nth {A B} (R : A -> B -> Prop) (l : list A) (l' : list B) :
  Forall2 R l l' ->
  forall i a, nth_error l i = Some a -> exists b, nth_error l' i = Some b /\ R a b.
Proof.
  induction 1 as [|a0 b0 l l' HR _ IH]; intros [|i] a Hnth; try discriminate.
  - injection Hnth as <-. now exists b0.
  - now apply IH.
Qed.

Lemma Forall2_combine_in {A B} (R : A -> B -> Prop) (l : list A) (l' : list B) :
  Forall2 R l l' -> forall a, In a l -> exists b, In (a, b) (combine l l') /\ R a b.
Proof.
  induction 1 as [|a0 b0 l l' HR _ IH]; intros a Hin; [contradiction|].
  destruct Hin as [->|Hin].
  - exists b0. split; [now left | assumption].
  - destruct (IH a Hin) as [b [Hb HRb]]. exists b. split; [now right | assumption].
Qed.

(** ** The claim recipient table *)

(** C9.  On a recipient file with valid points the mapper returns two arrays
    as long as the file, the account and its table amount side by side at
    every index; [loadClaimRecipients], which zips them into an object,
    gives every account the amount of its own points. *)
Theorem loadClaimRecipients_aligned (conf : EnvVars) (host : Host) (entries : Js.object Z) :
  checkEnvVars conf host = Returned tt ->
  readClaimRecipients host (env_claimRecipientsLocation conf) = Returned entries ->
  NoDup (Js.keys entries) ->
  Forall (fun e => validPoints (snd e)) entries ->
  exists tokenRecipients tokenAmounts table,
    mapPointsToAmounts entries = Returned (tokenRecipients, tokenAmounts)
    /\ length tokenRecipients = length entries
    /\ length tokenAmounts = length entries
    /\ (forall i key points,
          nth_error entries i = Some (key, points) ->
          nth_error tokenRecipients i = Some key
          /\ exists amount, nth_error tokenAmounts i = Some amount /\ tableAmount points amount)
    /\ loadClaimRecipients conf host = Returned table
    /\ Js.keys table = Js.keys entries
    /\ (forall key points,
          In (key, points) entries ->
          exists amount, Js.get table key = Some (Some amount) /\ tableAmount points amount).
Proof.
  intros Henv Hread Hnodup Hvalid.
  destruct (proj1 (mapPointsToAmounts_table entries) Hvalid) as [amounts [Hmap Hall]].
  assert (Hlen : length amounts = length entries)
    by (symmetry; eapply Forall2_length; eassumption).
  assert (Hzip : Js.mapi (fun tr i => (tr, nth_error amounts i)) (map fst entries)
                 = combine (map fst entries) (map Some amounts)).
  { apply (mapi_from_nth amounts (map fst entries) []). now rewrite length_map. }
  assert (Hkeys : map fst (combine (map fst entries) (map Some amounts)) = map fst entries).
  { clear -Hlen. revert amounts Hlen.
    induction entries as [|e rest IH]; intros [|a amounts] Hlen; try discriminate;
      cbn; [reflexivity|]. f_equal. apply IH. now injection Hlen. }
  exists (map fst entries), amounts, (combine (map fst entries) (map Some amounts)).
  repeat split.
  - exact Hmap.
  - apply length_map.
  - exact Hlen.
  - rewrite nth_error_map, H. reflexivity.
  - destruct (Forall2_nth _ _ _ Hall i (key, points) H) as [amount [Hnth Htable]].
    now exists amount.
  - unfold loadClaimRecipients. rewrite Henv. cbn [andThen].
    rewrite Hread. cbn [andThen]. rewrite Hmap. cbn [andThen fst snd].
    rewrite Hzip, fromEntries_unique; [reflexivity|]. now rewrite Hkeys.
  - exact Hkeys.
  - intros key points Hin.
    assert (Hpairs : Forall2 (fun k a => exists p, In (k, p) entries /\ tableAmount p a)
                       (map fst entries) amounts).
    { assert (Hgen : forall part amounts',
                 incl part entries ->
                 Forall2 (fun e amount => tableAmount (snd e) amount) part amounts' ->
                 Forall2 (fun k a => exists p, In (k, p) entries /\ tableAmount p a)
                   (map fst part) amounts').
      { intros part amounts' Hincl Hpart.
        induction Hpart as [|[k p] a rest amounts' Ha _ IH]; cbn; constructor.
        - exists p. split; [apply Hincl; now left | exact Ha].
        - apply IH. intros x Hx. apply Hincl. now right. }
      apply Hgen; [apply incl_refl | exact Hall]. }
    assert (Hsome : Forall2 (fun k a => exists p amount,
                                 a = Some amount /\ In (k, p) entries /\ tableAmount p amount)
                       (map fst entries) (map Some amounts)).
    { clear -Hpairs. induction Hpairs as [|k a ks amounts [p [Hp Ha]] _ IH]; cbn; constructor.
      - now exists p, a.
      - exact IH. }
    destruct (Forall2_combine_in _ _ _ Hsome key) as [v [Hv [p [amount [-> [Hp Hamount]]]]]].
    { change key with (fst (key, points)). now apply in_map. }
    exists amount. split.
    + apply get_unique; [unfold Js.keys; now rewrite Hkeys | exact Hv].
    + assert (p = points); [|now subst].
      clear -Hnodup Hin Hp. unfold Js.keys in Hnodup.
      induction entries as [|[k q] rest IH]; [contradiction|].
      cbn in Hnodup. inversion Hnodup as [|? ? Hfresh Hrest]; subst.
      destruct Hin as [Hin|Hin], Hp as [Hp|Hp].
      * congruence.
      * injection Hin as -> ->. exfalso. apply Hfresh.
        change key with (fst (key, p)). now apply in_map.
      * injection Hp as -> ->. exfalso. apply Hfresh.
        change key with (fst (key, points)). now apply in_map.
      * now apply IH.
Qed.

(** ** Gas guard *)

Lemma getGasPrice_confirmed (net : Chains) (w : World) :
  confirms net (requests w) = true ->
  getGasPrice net Arb w = (Returned (number net (requests w)), answered (record sample w)).
Proof. intros H. unfold getGasPrice, bind, request. now rewrite H. Qed.

Lemma polled_requests (n : nat) (w : World) : requests (polled n w) = requests w + n.
Proof.
  revert w. induction n as [|n IH]; intros w; cbn; [lia|].
  rewrite IH. cbn. lia.
Qed.

Lemma polled_trace (n : nat) (w : World) :
  trace (polled n w)
  = trace w ++ concat (repeat [Sleep 30000; sample] n).
Proof.
  revert w. induction n as [|n IH]; intros w; cbn.
  - now rewrite app_nil_r.
  - rewrite IH. cbn. now rewrite <- !app_assoc.
Qed.

Lemma polled_state (n : nat) (w : World) :
  deployedContracts (polled n w) = deployedContracts w /\ disk (polled n w) = disk w.
Proof. revert w. induction n as [|n IH]; intros w; cbn; [auto|]. now rewrite !(proj1 (IH _)), !(proj2 (IH _)). Qed.

(** The loop leaves at the first later sample that equals the base price. *)
Lemma waitForBaseGasPrice_returns (net : Chains) (i : nat) :
  forall fuel w,
  (forall n, confirms net n = true) ->
  i < fuel ->
  number net (requests w + i) = BASE_GAS_PRICE ->
  (forall j, j < i -> number net (requests w + j) <> BASE_GAS_PRICE) ->
  waitForBaseGasPrice net fuel w = (Returned BASE_GAS_PRICE, polled (S i) w).
Proof.
  induction i as [|i IH]; intros fuel w Hok Hfuel Hbase Hbefore;
    (destruct fuel as [|fuel]; [lia|]); cbn [waitForBaseGasPrice];
    unfold bind at 1; unfold sleep at 1; unfold bind at 1;
    rewrite getGasPrice_confirmed by apply Hok; cbn [requests record].
  - rewrite Nat.add_0_r in Hbase. rewrite Hbase, Z.eqb_refl. reflexivity.
  - specialize (Hbefore 0 ltac:(lia)) as Hfirst. rewrite Nat.add_0_r in Hfirst.
    apply Z.eqb_neq in Hfirst. rewrite Hfirst.
    rewrite (IH fuel); [reflexivity | assumption | lia | |].
    + cbn. now rewrite <- Nat.add_succ_comm in Hbase.
    + intros j Hj. cbn. specialize (Hbefore (S j) ltac:(lia)).
      now rewrite <- Nat.add_succ_comm in Hbefore.
Qed.

(** Without such a sample the loop goes on, wherever the price falls. *)
Lemma waitForBaseGasPrice_waits (net : Chains) (fuel : nat) :
  forall w,
  (forall n, confirms net n = true) ->
  (forall j, j < fuel -> number net (requests w + j) <> BASE_GAS_PRICE) ->
  waitForBaseGasPrice net fuel w = (OutOfFuel, polled fuel w).
Proof.
  induction fuel as [|fuel IH]; intros w Hok Hnever; [reflexivity|].
  cbn [waitForBaseGasPrice].
  unfold bind at 1; unfold sleep at 1; unfold bind at 1.
  rewrite getGasPrice_confirmed by apply Hok. cbn [requests record].
  specialize (Hnever 0 ltac:(lia)) as Hfirst. rewrite Nat.add_0_r in Hfirst.
  apply Z.eqb_neq in Hfirst. rewrite Hfirst.
  rewrite IH; [reflexivity | assumption |].
  intros j Hj. cbn. specialize (Hnever (S j) ltac:(lia)).
  now rewrite <- Nat.add_succ_comm in Hnever.
Qed.

Lemma gasGuard_low (net : Chains) (fuel : nat) (w : World) :
  (forall n, confirms net n = true) ->
  (number net (requests w) <= GAS_PRICE_UNACCEPTABLE_LIMIT)%Z ->
  gasGuard net fuel w = (Returned tt, answered (record sample w)).
Proof.
  intros Hok Hlow. unfold gasGuard, bind. rewrite getGasPrice_confirmed by apply Hok.
  apply Z.ltb_ge in Hlow. now rewrite Hlow.
Qed.

Lemma gasGuard_high_returns (net : Chains) (fuel : nat) (w : World) (i : nat) :
  (forall n, confirms net n = true) ->
  (GAS_PRICE_UNACCEPTABLE_LIMIT < number net (requests w))%Z ->
  i < fuel ->
  number net (requests w + 1 + i) = BASE_GAS_PRICE ->
  (forall j, j < i -> number net (requests w + 1 + j) <> BASE_GAS_PRICE) ->
  gasGuard net fuel w = (Returned tt, polled (S i) (answered (record sample w))).
Proof.
  intros Hok Hhigh Hfuel Hbase Hbefore.
  assert (Hreq : requests (answered (record sample w)) = requests w + 1) by (cbn; lia).
  unfold gasGuard, bind. rewrite getGasPrice_confirmed by apply Hok.
  apply Z.ltb_lt in Hhigh. rewrite Hhigh.
  rewrite (waitForBaseGasPrice_returns net i); try assumption; try reflexivity.
  - now rewrite Hreq.
  - intros j Hj. rewrite Hreq. now apply Hbefore.
Qed.

Lemma gasGuard_high_waits (net : Chains) (fuel : nat) (w : World) :
  (forall n, confirms net n = true) ->
  (GAS_PRICE_UNACCEPTABLE_LIMIT < number net (requests w))%Z ->
  (forall j, j < fuel -> number net (requests w + 1 + j) <> BASE_GAS_PRICE) ->
  gasGuard net fuel w = (OutOfFuel, polled fuel (answered (record sample w))).
Proof.
  intros Hok Hhigh Hnever.
  assert (Hreq : requests (answered (record sample w)) = requests w + 1) by (cbn; lia).
  unfold gasGuard, bind. rewrite getGasPrice_confirmed by apply Hok.
  apply Z.ltb_lt in Hhigh. rewrite Hhigh.
  rewrite waitForBaseGasPrice_waits; try assumption; try reflexivity.
  intros j Hj. rewrite Hreq. now apply Hnever.
Qed.

(** C2.  A first sample at or below the limit lets the guard return at once,
    without a sleep.  A first sample above the limit starts the polling loop,
    which sleeps thirty seconds and samples again, and leaves at the first
    sample equal to the base price; samples that differ from the base price,
    even below the limit, keep it in the loop.  With the samples 0.15, 0.13
    and 0.10 gwei the guard returns right after the third one. *)
Theorem gasGuard_resumes_on_base_price :
  (forall (net : Chains) (fuel : nat) (w : World),
     (forall n, confirms net n = true) ->
     ((number net (requests w) <= GAS_PRICE_UNACCEPTABLE_LIMIT)%Z ->
      gasGuard net fuel w = (Returned tt, answered (record sample w)))
     /\
     ((GAS_PRICE_UNACCEPTABLE_LIMIT < number net (requests w))%Z ->
      forall i,
        i < fuel ->
        number net (requests w + 1 + i) = BASE_GAS_PRICE ->
        (forall j, j < i -> number net (requests w + 1 + j) <> BASE_GAS_PRICE) ->
        gasGuard net fuel w = (Returned tt, polled (S i) (answered (record sample w))))
     /\
     ((GAS_PRICE_UNACCEPTABLE_LIMIT < number net (requests w))%Z ->
      (forall j, j < fuel -> number net (requests w + 1 + j) <> BASE_GAS_PRICE) ->
      gasGuard net fuel w = (OutOfFuel, polled fuel (answered (record sample w)))))
  /\
  (forall fuel,
     gasGuard (sampledChains [150000000; 130000000; 100000000]%Z 100000000)
       (S (S fuel)) (freshProcess [])
     = (Returned tt,
        {| deployedContracts := [];
           disk := [];
           trace := [sample; Sleep 30000; sample; Sleep 30000; sample];
           requests := 3 |})).
Proof.
  split.
  - intros net fuel w Hok. repeat split.
    + now apply gasGuard_low.
    + intros Hhigh i. now apply gasGuard_high_returns.
    + now apply gasGuard_high_waits.
  - intros fuel. reflexivity.
Qed.

Lemma gasGuard_resumes_on_base_price_witness :
  gasGuard (steadyChains 80000000) 0 (freshProcess [])
  = (Returned tt, answered (record sample (freshProcess [])))
  /\
  gasGuard (sampledChains [150000000; 110000000; 100000000]%Z 100000000) 5 (freshProcess [])
  = (Returned tt, polled 2 (answered (record sample (freshProcess []))))
  /\
  gasGuard (sampledChains [150000000]%Z 110000000) 5 (freshProcess [])
  = (OutOfFuel, polled 5 (answered (record sample (freshProcess [])))).
Proof.
  split; [|split].
  - apply (proj1 gasGuard_resumes_on_base_price (steadyChains 80000000) 0 (freshProcess [])).
    + intros n. reflexivity.
    + cbn. unfold GAS_PRICE_UNACCEPTABLE_LIMIT. lia.
  - apply (proj1 gasGuard_resumes_on_base_price
             (sampledChains [150000000; 110000000; 100000000]%Z 100000000) 5 (freshProcess [])).
    + intros n. reflexivity.
    + cbn. unfold GAS_PRICE_UNACCEPTABLE_LIMIT. lia.
    + lia.
    + reflexivity.
    + intros j Hj. assert (j = 0) as -> by lia. cbn. discriminate.
  - apply (proj1 gasGuard_resumes_on_base_price
             (sampledChains [150000000]%Z 110000000) 5 (freshProcess [])).
    + intros n. reflexivity.
    + cbn. unfold GAS_PRICE_UNACCEPTABLE_LIMIT. lia.
    + intros j Hj. cbn. destruct j; cbn; [discriminate|]. destruct j; discriminate.
Defined.

(** A price that falls below the limit without reaching the base price does
    not release the guard: 0.15, 0.11, 0.11, ... gwei. *)
Example gasGuard_below_limit_keeps_waiting :
  fst (gasGuard (sampledChains [150000000]%Z 110000000) 50 (freshProcess [])) = OutOfFuel.
Proof. reflexivity. Qed.

(** A first sample of 0.08 gwei: one request, no sleep. *)
Example gasGuard_low_first_sample :
  gasGuard (steadyChains 80000000) 50 (freshProcess [])
  = (Returned tt,
     {| deployedContracts := []; disk := []; trace := [sample]; requests := 1 |}).
Proof. reflexivity. Qed.

(** ** Batch slicing *)

Lemma bind_returned {A B} (m : Script A) (k : A -> Script B) (w w' : World) (b : B) :
  bind m k w = (Returned b, w') ->
  exists a w1, m w = (Returned a, w1) /\ k a w1 = (Returned b, w').
Proof.
  unfold bind. destruct (m w) as [[a| |] w1]; intros H; try discriminate.
  now exists a, w1.
Qed.

Lemma submittedBatches_app (t t' : list Event) :
  submittedBatches (t ++ t') = submittedBatches t ++ submittedBatches t'.
Proof. apply flat_map_app. Qed.

Lemma submitsNothing_ret {A} (a : A) : submitsNothing (ret a).
Proof. intros w. reflexivity. Qed.

Lemma submitsNothing_outOfFuel {A} : submitsNothing (@outOfFuel A).
Proof. intros w. reflexivity. Qed.

Lemma submitsNothing_bind {A B} (m : Script A) (k : A -> Script B) :
  submitsNothing m -> (forall a, submitsNothing (k a)) -> submitsNothing (bind m k).
Proof.
  intros Hm Hk w. unfold bind. specialize (Hm w).
  destruct (m w) as [[a| |] w1]; cbn in *; try assumption.
  now rewrite Hk.
Qed.

Lemma submitsNothing_sleep (ms : Z) : submitsNothing (sleep ms).
Proof. intros w. cbn. rewrite submittedBatches_app. cbn. now rewrite app_nil_r. Qed.

Lemma submitsNothing_getGasPrice (net : Chains) : submitsNothing (getGasPrice net Arb).
Proof.
  intros w. unfold getGasPrice, bind, request.
  destruct (confirms net (requests w)); cbn;
    rewrite submittedBatches_app; cbn; now rewrite app_nil_r.
Qed.

Lemma submitsNothing_waitForBaseGasPrice (net : Chains) (fuel : nat) :
  submitsNothing (waitForBaseGasPrice net fuel).
Proof.
  induction fuel as [|fuel IH]; cbn [waitForBaseGasPrice].
  - apply submitsNothing_outOfFuel.
  - apply submitsNothing_bind; [apply submitsNothing_sleep|]. intros _.
    apply submitsNothing_bind; [apply submitsNothing_getGasPrice|]. intros price.
    destruct (price =? BASE_GAS_PRICE)%Z; [apply submitsNothing_ret | exact IH].
Qed.

Lemma submitsNothing_gasGuard (net : Chains) (fuel : nat) : submitsNothing (gasGuard net fuel).
Proof.
  unfold gasGuard.
  apply submitsNothing_bind; [apply submitsNothing_getGasPrice|]. intros price.
  destruct (GAS_PRICE_UNACCEPTABLE_LIMIT <? price)%Z; [|apply submitsNothing_ret].
  apply submitsNothing_bind; [apply submitsNothing_waitForBaseGasPrice|].
  intros _. apply submitsNothing_ret.
Qed.

(** [setRecipients] hands over exactly its batch, however it ends. *)
Lemma setRecipients_submits (net : Chains) (tokenDistributor : string)
    (recipients : list string) (amounts : list Z) (w : World) :
  submittedBatches (trace (snd (setRecipients net tokenDistributor recipients amounts w)))
  = submittedBatches (trace w) ++ [(recipients, amounts)].
Proof.
  unfold setRecipients, sendAndWait, send, wait, bind, request, ret.
  destruct (confirms net (requests w)); cbn.
  - destruct (confirms net (S (requests w))); cbn;
      rewrite !submittedBatches_app; cbn; rewrite ?app_nil_r; reflexivity.
  - rewrite submittedBatches_app. cbn. rewrite ?app_nil_r. reflexivity.
Qed.

Lemma setRecipients_confirmed (net : Chains) (tokenDistributor : string)
    (recipients : list string) (amounts : list Z) (w : World) :
  (forall n, confirms net n = true) ->
  exists w', setRecipients net tokenDistributor recipients amounts w = (Returned tt, w').
Proof.
  intros Hok. unfold setRecipients, sendAndWait, send, wait, bind, request, ret.
  cbn. rewrite !Hok. eauto.
Qed.

Lemma expectedSlices_done {A} (batchSize i : nat) (l : list A) :
  length l / batchSize < i -> expectedSlices batchSize i l = [].
Proof.
  intros H. unfold expectedSlices.
  replace (length l / batchSize - i) with 0 by lia. cbn.
  destruct (Nat.leb_spec i (length l / batchSize)); [lia | reflexivity].
Qed.

Lemma expectedSlices_full {A} (batchSize i : nat) (l : list A) :
  i < length l / batchSize ->
  expectedSlices batchSize i l
  = Js.slice (i * batchSize) ((i + 1) * batchSize) l :: expectedSlices batchSize (S i) l.
Proof.
  intros H. unfold expectedSlices.
  replace (length l / batchSize - i) with (S (length l / batchSize - S i)) by lia.
  cbn [seq map app]. do 2 f_equal.
  destruct (Nat.leb_spec i (length l / batchSize)),
           (Nat.leb_spec (S i) (length l / batchSize)); try lia; reflexivity.
Qed.

Lemma expectedSlices_last {A} (batchSize : nat) (l : list A) :
  expectedSlices batchSize (length l / batchSize) l
  = if (length l =? length l / batchSize * batchSize)%nat then []
    else [Js.sliceFrom (length l / batchSize * batchSize) l].
Proof.
  unfold expectedSlices. rewrite Nat.sub_diag, Nat.leb_refl. cbn.
  now destruct (length l =? length l / batchSize * batchSize)%nat.
Qed.

Section BatchLoop.

Variable net : Chains.
Variable BATCH_SIZE : nat.
Variable tokenDistributor : string.
Variable tokenRecipients : list string.
Variable tokenAmounts : list Z.
Variable budget : nat.
Hypothesis aligned : length tokenRecipients = length tokenAmounts.

Let loop := batchesFrom net BATCH_SIZE tokenDistributor tokenRecipients tokenAmounts budget.
Let numBatches := numOfBatches BATCH_SIZE tokenRecipients.

Lemma batchesFrom_slices (fuel : nat) :
  forall i w w',
  loop fuel i w = (Returned tt, w') ->
  submittedBatches (trace w')
  = submittedBatches (trace w)
    ++ combine (expectedSlices BATCH_SIZE i tokenRecipients)
               (expectedSlices BATCH_SIZE i tokenAmounts).
Proof.
  subst loop. induction fuel as [|fuel IH]; intros i w w' Hrun; cbn [batchesFrom] in Hrun;
    fold numBatches in Hrun;
    destruct (Nat.ltb_spec numBatches i) as [Hpast|Hin].
  1, 3: injection Hrun as <-;
        rewrite expectedSlices_done by exact Hpast; cbn; now rewrite app_nil_r.
  - discriminate.
  - apply bind_returned in Hrun as [[] [w1 [Hguard Hrun]]].
    apply bind_returned in Hrun as [[] [w2 [Hsleep Hrun]]].
    assert (Hquiet : submittedBatches (trace w2) = submittedBatches (trace w)).
    { pose proof (submitsNothing_gasGuard net budget w) as H1. rewrite Hguard in H1.
      pose proof (submitsNothing_sleep 1000 w1) as H2. rewrite Hsleep in H2.
      cbn in H1, H2. congruence. }
    destruct (Nat.ltb_spec i numBatches) as [Hfull|Hlast].
    + apply bind_returned in Hrun as [[] [w3 [Hset Hrun]]].
      apply IH in Hrun. rewrite Hrun.
      pose proof (setRecipients_submits net tokenDistributor
                    (Js.slice (i * BATCH_SIZE) ((i + 1) * BATCH_SIZE) tokenRecipients)
                    (Js.slice (i * BATCH_SIZE) ((i + 1) * BATCH_SIZE) tokenAmounts) w2) as H3.
      rewrite Hset in H3. cbn [snd] in H3. rewrite H3, Hquiet.
      rewrite (expectedSlices_full BATCH_SIZE i tokenRecipients) by exact Hfull.
      rewrite (expectedSlices_full BATCH_SIZE i tokenAmounts)
        by (rewrite <- aligned; exact Hfull).
      cbn [combine]. now rewrite <- app_assoc.
    + assert (i = numBatches) as -> by lia. unfold numBatches, numOfBatches.
      rewrite expectedSlices_last.
      replace (length tokenRecipients / BATCH_SIZE)
        with (length tokenAmounts / BATCH_SIZE) at 3 by now rewrite aligned.
      rewrite expectedSlices_last. rewrite <- aligned.
      unfold numBatches, numOfBatches in Hrun.
      destruct (length tokenRecipients =? length tokenRecipients / BATCH_SIZE * BATCH_SIZE)%nat.
      * injection Hrun as <-. cbn. now rewrite app_nil_r.
      * apply bind_returned in Hrun as [[] [w3 [Hset Hrun]]].
        apply IH in Hrun. rewrite Hrun.
        rewrite !expectedSlices_done by (rewrite <- ?aligned; lia).
        cbn [combine]. rewrite app_nil_r.
        pose proof (setRecipients_submits net tokenDistributor
                      (Js.sliceFrom (length tokenRecipients / BATCH_SIZE * BATCH_SIZE) tokenRecipients)
                      (Js.sliceFrom (length tokenRecipients / BATCH_SIZE * BATCH_SIZE) tokenAmounts) w2) as H3.
        rewrite Hset in H3. cbn [snd] in H3. now rewrite H3, Hquiet.
Qed.

Hypothesis confirmed : forall n, confirms net n = true.
Hypothesis calm : forall n, (number net n <= GAS_PRICE_UNACCEPTABLE_LIMIT)%Z.

Lemma batchesFrom_returns (fuel : nat) :
  forall i w, numBatches + 1 - i <= fuel -> exists w', loop fuel i w = (Returned tt, w').
Proof.
  subst loop. induction fuel as [|fuel IH]; intros i w Hfuel; cbn [batchesFrom];
    fold numBatches; destruct (Nat.ltb_spec numBatches i) as [Hpast|Hin];
    try (eexists; reflexivity); [lia|].
  unfold bind at 1. rewrite gasGuard_low by auto.
  unfold bind at 1. cbn [sleep].
  destruct (Nat.ltb_spec i numBatches) as [Hfull|Hlast].
  - unfold bind at 1.
    destruct (setRecipients_confirmed net tokenDistributor
                (Js.slice (i * BATCH_SIZE) ((i + 1) * BATCH_SIZE) tokenRecipients)
                (Js.slice (i * BATCH_SIZE) ((i + 1) * BATCH_SIZE) tokenAmounts)
                (record (Sleep 1000) (answered (record sample w))) confirmed) as [w3 ->].
    apply IH. lia.
  - destruct (length tokenRecipients =? numBatches * BATCH_SIZE)%nat;
      [eexists; reflexivity|].
    unfold bind at 1.
    destruct (setRecipients_confirmed net tokenDistributor
                (Js.sliceFrom (i * BATCH_SIZE) tokenRecipients)
                (Js.sliceFrom (i * BATCH_SIZE) tokenAmounts)
                (record (Sleep 1000) (answered (record sample w))) confirmed) as [w3 ->].
    apply IH. lia.
Qed.

End BatchLoop.

Lemma mapPointsToAmounts_from_lengths (entries : Js.object Z) :
  forall tokenRecipients tokenAmounts recipients amounts,
  length tokenRecipients = length tokenAmounts ->
  mapPointsToAmounts_from entries tokenRecipients tokenAmounts = Returned (recipients, amounts) ->
  length recipients = length amounts.
Proof.
  induction entries as [|[key points] rest IH];
    intros tokenRecipients tokenAmounts recipients amounts Hlen Hrun; cbn in Hrun.
  - now injection Hrun as <- <-.
  - destruct (amountForPoints points) as [amount|]; [|discriminate].
    apply IH in Hrun; [assumption|]. rewrite !length_app. cbn. lia.
Qed.

Lemma mapPointsToAmounts_lengths (entries : Js.object Z) (recipients : list string)
    (amounts : list Z) :
  mapPointsToAmounts entries = Returned (recipients, amounts) ->
  length recipients = length amounts.
Proof. now apply mapPointsToAmounts_from_lengths. Qed.

Lemma setClaimRecipientsBy_mapped (net : Chains) (BATCH_SIZE alreadySet : nat)
    (entries : Js.object Z) (budget : nat) (tokenDistributor : string)
    (recipients : list string) (amounts : list Z) (w : World) :
  mapPointsToAmounts entries = Returned (recipients, amounts) ->
  setClaimRecipientsBy net BATCH_SIZE alreadySet entries budget tokenDistributor w
  = batchesFrom net BATCH_SIZE tokenDistributor recipients amounts budget budget alreadySet w.
Proof. intros H. unfold setClaimRecipientsBy, bind, liftOutcome. now rewrite H. Qed.

Lemma sliceFrom_to_end {A} (from : nat) (l : list A) :
  Js.sliceFrom from l = Js.slice from (length l) l.
Proof.
  unfold Js.sliceFrom, Js.slice. rewrite firstn_all2; [reflexivity|].
  rewrite length_skipn. lia.
Qed.

Lemma expectedSlices_250 {A} (l : list A) :
  length l = 250 ->
  expectedSlices 100 0 l = [Js.slice 0 100 l; Js.slice 100 200 l; Js.slice 200 250 l].
Proof.
  intros H.
  assert (Hdiv : length l / 100 = 2) by (rewrite H; reflexivity).
  pose proof (expectedSlices_last 100 l) as Hlast.
  rewrite Hdiv, H in Hlast.
  change (250 =? 2 * 100)%nat with false in Hlast. cbv iota in Hlast.
  rewrite sliceFrom_to_end, H in Hlast.
  rewrite (expectedSlices_full 100 0) by lia.
  rewrite (expectedSlices_full 100 1) by lia.
  rewrite Hlast. reflexivity.
Qed.

Lemma expectedSlices_200 {A} (l : list A) :
  length l = 200 ->
  expectedSlices 100 0 l = [Js.slice 0 100 l; Js.slice 100 200 l].
Proof.
  intros H.
  assert (Hdiv : length l / 100 = 2) by (rewrite H; reflexivity).
  pose proof (expectedSlices_last 100 l) as Hlast.
  rewrite Hdiv, H in Hlast.
  change (200 =? 2 * 100)%nat with true in Hlast. cbv iota in Hlast.
  rewrite (expectedSlices_full 100 0) by lia.
  rewrite (expectedSlices_full 100 1) by lia.
  rewrite Hlast. reflexivity.
Qed.

(** C1.  With [numOfBatches = floor(len / BATCH_SIZE)] and the indices
    running from the start index through [numOfBatches], a run that returns
    has submitted, in order, the full slice of every index below
    [numOfBatches] and then the remainder, if the length is not a multiple
    of the batch size; such a run exists when the requests go through and
    the gas price stays at or below the limit.  For 250 recipients and
    batches of 100 the slices are [0:100], [100:200] and [200:250]; for 200
    recipients they are [0:100] and [100:200]. *)
Theorem setClaimRecipients_slices :
  (forall (net : Chains) (BATCH_SIZE alreadySet : nat) (entries : Js.object Z)
          (budget : nat) (tokenDistributor : string) (w : World)
          (recipients : list string) (amounts : list Z),
     0 < BATCH_SIZE ->
     mapPointsToAmounts entries = Returned (recipients, amounts) ->
     (forall w',
        setClaimRecipientsBy net BATCH_SIZE alreadySet entries budget tokenDistributor w
        = (Returned tt, w') ->
        submittedBatches (trace w')
        = submittedBatches (trace w)
          ++ combine (expectedSlices BATCH_SIZE alreadySet recipients)
                     (expectedSlices BATCH_SIZE alreadySet amounts))
     /\
     ((forall n, confirms net n = true) ->
      (forall n, (number net n <= GAS_PRICE_UNACCEPTABLE_LIMIT)%Z) ->
      length recipients / BATCH_SIZE + 1 - alreadySet <= budget ->
      exists w',
        setClaimRecipientsBy net BATCH_SIZE alreadySet entries budget tokenDistributor w
        = (Returned tt, w')))
  /\
  (forall (net : Chains) (entries : Js.object Z) (budget : nat) (tokenDistributor : string)
          (w w' : World) (recipients : list string) (amounts : list Z),
     mapPointsToAmounts entries = Returned (recipients, amounts) ->
     setClaimRecipients net 0 entries budget tokenDistributor w = (Returned tt, w') ->
     (length recipients = 250 ->
      submittedBatches (trace w')
      = submittedBatches (trace w)
        ++ [ (Js.slice 0 100 recipients, Js.slice 0 100 amounts);
             (Js.slice 100 200 recipients, Js.slice 100 200 amounts);
             (Js.slice 200 250 recipients, Js.slice 200 250 amounts) ])
     /\
     (length recipients = 200 ->
      submittedBatches (trace w')
      = submittedBatches (trace w)
        ++ [ (Js.slice 0 100 recipients, Js.slice 0 100 amounts);
             (Js.slice 100 200 recipients, Js.slice 100 200 amounts) ])).
Proof.
  split.
  - intros net BATCH_SIZE alreadySet entries budget tokenDistributor w recipients amounts
      _ Hmap.
    pose proof (mapPointsToAmounts_lengths _ _ _ Hmap) as Hlen.
    rewrite (setClaimRecipientsBy_mapped _ _ _ _ _ _ _ _ _ Hmap). split.
    + intros w' Hrun. now apply batchesFrom_slices in Hrun.
    + intros Hok Hcalm Hbudget. now apply batchesFrom_returns.
  - intros net entries budget tokenDistributor w w' recipients amounts Hmap Hrun.
    pose proof (mapPointsToAmounts_lengths _ _ _ Hmap) as Hlen.
    unfold setClaimRecipients in Hrun.
    rewrite (setClaimRecipientsBy_mapped _ _ _ _ _ _ _ _ _ Hmap) in Hrun.
    apply batchesFrom_slices in Hrun; [|exact Hlen]. rewrite Hrun. clear Hrun.
    split; intros Hsize; f_equal.
    + rewrite !expectedSlices_250 by congruence. reflexivity.
    + rewrite !expectedSlices_200 by congruence. reflexivity.
Qed.

Lemma setClaimRecipients_slices_witness :
  (exists w',
     setClaimRecipientsBy (steadyChains BASE_GAS_PRICE) 100 0 (recipientFile 250) 3 "0xd"
       (freshProcess [])
     = (Returned tt, w'))
  /\
  submittedBatches (trace (snd (calmRun 250)))
  = submittedBatches (trace (freshProcess []))
    ++ [ (Js.slice 0 100 (map fst (recipientFile 250)),
          Js.slice 0 100 (amountsOf (recipientFile 250)));
         (Js.slice 100 200 (map fst (recipientFile 250)),
          Js.slice 100 200 (amountsOf (recipientFile 250)));
         (Js.slice 200 250 (map fst (recipientFile 250)),
          Js.slice 200 250 (amountsOf (recipientFile 250))) ]
  /\
  submittedBatches (trace (snd (calmRun 200)))
  = submittedBatches (trace (freshProcess []))
    ++ [ (Js.slice 0 100 (map fst (recipientFile 200)),
          Js.slice 0 100 (amountsOf (recipientFile 200)));
         (Js.slice 100 200 (map fst (recipientFile 200)),
          Js.slice 100 200 (amountsOf (recipientFile 200))) ].
Proof.
  split; [|split].
  - apply (proj2 (proj1 setClaimRecipients_slices (steadyChains BASE_GAS_PRICE) 100 0
                    (recipientFile 250) 3 "0xd" (freshProcess [])
                    (map fst (recipientFile 250)) (amountsOf (recipientFile 250))
                    ltac:(lia) ltac:(vm_compute; reflexivity))).
    + intros n. reflexivity.
    + intros n. cbn. unfold BASE_GAS_PRICE, GAS_PRICE_UNACCEPTABLE_LIMIT. lia.
    + vm_compute. lia.
  - apply (proj1 (proj2 setClaimRecipients_slices (steadyChains BASE_GAS_PRICE)
                    (recipientFile 250) 3 "0xd" (freshProcess []) (snd (calmRun 250))
                    (map fst (recipientFile 250)) (amountsOf (recipientFile 250))
                    ltac:(vm_compute; reflexivity) ltac:(vm_compute; reflexivity))).
    vm_compute. reflexivity.
  - apply (proj2 (proj2 setClaimRecipients_slices (steadyChains BASE_GAS_PRICE)
                    (recipientFile 200) 3 "0xd" (freshProcess []) (snd (calmRun 200))
                    (map fst (recipientFile 200)) (amountsOf (recipientFile 200))
                    ltac:(vm_compute; reflexivity) ltac:(vm_compute; reflexivity))).
    vm_compute. reflexivity.
Defined.

Lemma sampleRecipients_valid : Forall (fun e => validPoints (snd e)) sampleRecipients.
Proof.
  unfold sampleRecipients.
  repeat (apply Forall_cons; [unfold validPoints; in_list|]). apply Forall_nil.
Qed.

Lemma loadClaimRecipients_aligned_witness :
  exists tokenRecipients tokenAmounts table,
    mapPointsToAmounts sampleRecipients = Returned (tokenRecipients, tokenAmounts)
    /\ length tokenRecipients = length sampleRecipients
    /\ length tokenAmounts = length sampleRecipients
    /\ (forall i key points,
          nth_error sampleRecipients i = Some (key, points) ->
          nth_error tokenRecipients i = Some key
          /\ exists amount, nth_error tokenAmounts i = Some amount /\ tableAmount points amount)
    /\ loadClaimRecipients (sampleEnv (Some "true")) (sampleHost sampleRecipients)
       = Returned table
    /\ Js.keys table = Js.keys sampleRecipients
    /\ (forall key points,
          In (key, points) sampleRecipients ->
          exists amount, Js.get table key = Some (Some amount) /\ tableAmount points amount).
Proof.
  apply (loadClaimRecipients_aligned (sampleEnv (Some "true")) (sampleHost sampleRecipients)
           sampleRecipients).
  - reflexivity.
  - reflexivity.
  - cbn. repeat (constructor; [cbn; intuition discriminate|]). constructor.
  - exact sampleRecipients_valid.
Defined.

Example loadClaimRecipients_sample :
  loadClaimRecipients (sampleEnv (Some "true")) (sampleHost sampleRecipients)
  = Returned [ ("0xaa", Some (parseEther 3000));
               ("0xbb", Some (parseEther 10500));
               ("0xcc", Some (parseEther 12000)) ].
Proof. reflexivity. Qed.

(** ** What a script leaves untouched *)

Section Preserves.

Context {X : Type} (part : World -> X).

Lemma preserves_ret {A} (a : A) : preserves part (ret a).
Proof. intros w. reflexivity. Qed.

Lemma preserves_throw {A} (message : string) : preserves part (@throw A message).
Proof. intros w. reflexivity. Qed.

Lemma preserves_outOfFuel {A} : preserves part (@outOfFuel A).
Proof. intros w. reflexivity. Qed.

Lemma preserves_liftOutcome {A} (o : Outcome A) : preserves part (liftOutcome o).
Proof. intros w. reflexivity. Qed.

Lemma preserves_getDeployers (net : Chains) : preserves part (getDeployers net).
Proof. intros w. reflexivity. Qed.

Lemma preserves_bind {A B} (m : Script A) (k : A -> Script B) :
  preserves part m -> (forall a, preserves part (k a)) -> preserves part (bind m k).
Proof.
  intros Hm Hk w. unfold bind. specialize (Hm w).
  destruct (m w) as [[a| |] w1]; cbn in *; try assumption.
  now rewrite Hk.
Qed.

Hypothesis off : offChain part.

Lemma preserves_sleep (ms : Z) : preserves part (sleep ms).
Proof. intros w. cbn. apply off. Qed.

Lemma preserves_request (net : Chains) (e : Event) : preserves part (request net e).
Proof.
  intros w. unfold request. destruct off as [Hrecord Hanswered].
  destruct (confirms net (requests w)); cbn; now rewrite Hanswered, Hrecord.
Qed.

End Preserves.

Lemma offChain_disk : offChain disk.
Proof. split; reflexivity. Qed.

Lemma offChain_deployedContracts : offChain deployedContracts.
Proof. split; reflexivity. Qed.

Lemma preserves_disk_store (key value : string) : preserves disk (store key value).
Proof. intros w. reflexivity. Qed.

Create HintDb frame.
#[export] Hint Resolve preserves_ret preserves_throw preserves_outOfFuel
  preserves_liftOutcome preserves_getDeployers preserves_sleep preserves_request
  preserves_disk_store offChain_disk offChain_deployedContracts : frame.

(** Walks through a script bound by bound. *)
Ltac frame :=
  cbv zeta;
  repeat lazymatch goal with
    | |- preserves _ (bind _ _) => apply preserves_bind; [|intro]
    | |- preserves _ (if ?b then _ else _) => destruct b
    | |- preserves _ _ => solve [eauto with frame]
    end.

Section PreservesRequests.

Context {X : Type} (part : World -> X).
Hypothesis off : offChain part.
Variable net : Chains.

Lemma preserves_deploy on factory args : preserves part (deploy net on factory args).
Proof. unfold deploy. frame. Qed.

Lemma preserves_wait on what : preserves part (wait net on what).
Proof. unfold wait. frame. Qed.

Lemma preserves_send on contract method args :
  preserves part (send net on contract method args).
Proof. unfold send. frame. Qed.

Lemma preserves_sendAndWait on contract method args :
  preserves part (sendAndWait net on contract method args).
Proof. unfold sendAndWait, send, wait. frame. Qed.

Lemma preserves_getGasPrice on : preserves part (getGasPrice net on).
Proof. unfold getGasPrice. frame. Qed.

Lemma preserves_readAddress on contract method args :
  preserves part (readAddress net on contract method args).
Proof. unfold readAddress. frame. Qed.

Lemma preserves_readNumber on contract method args :
  preserves part (readNumber net on contract method args).
Proof. unfold readNumber. frame. Qed.

Lemma preserves_waitForStatus message : preserves part (waitForStatus net message).
Proof. unfold waitForStatus. frame. Qed.

Lemma preserves_waitForBaseGasPrice fuel : preserves part (waitForBaseGasPrice net fuel).
Proof.
  induction fuel as [|fuel IH]; cbn [waitForBaseGasPrice]; [frame|].
  apply preserves_bind; [frame|]. intros _.
  apply preserves_bind; [apply preserves_getGasPrice|]. intros price.
  destruct (price =? BASE_GAS_PRICE)%Z; [frame | exact IH].
Qed.

Lemma preserves_gasGuard fuel : preserves part (gasGuard net fuel).
Proof.
  unfold gasGuard. apply preserves_bind; [apply preserves_getGasPrice|]. intros price.
  destruct (GAS_PRICE_UNACCEPTABLE_LIMIT <? price)%Z; [|frame].
  apply preserves_bind; [apply preserves_waitForBaseGasPrice | intros; frame].
Qed.

Lemma preserves_setRecipients tokenDistributor recipients amounts :
  preserves part (setRecipients net tokenDistributor recipients amounts).
Proof.
  unfold setRecipients. apply preserves_bind; [apply preserves_sendAndWait | intros; frame].
Qed.

Lemma preserves_batchesFrom BATCH_SIZE tokenDistributor recipients amounts budget fuel :
  forall i,
  preserves part (batchesFrom net BATCH_SIZE tokenDistributor recipients amounts budget fuel i).
Proof.
  induction fuel as [|fuel IH]; intros i; cbn [batchesFrom];
    destruct (numOfBatches BATCH_SIZE recipients <? i)%nat; try solve [frame].
  apply preserves_bind; [apply preserves_gasGuard|]. intros _.
  apply preserves_bind; [frame|]. intros _.
  destruct (i <? numOfBatches BATCH_SIZE recipients)%nat.
  - apply preserves_bind; [apply preserves_setRecipients | intros; apply IH].
  - destruct (length recipients =? numOfBatches BATCH_SIZE recipients * BATCH_SIZE)%nat;
      [frame|].
    apply preserves_bind; [apply preserves_setRecipients | intros; apply IH].
Qed.

Lemma preserves_setClaimRecipientsBy BATCH_SIZE alreadySet entries budget tokenDistributor :
  preserves part
    (setClaimRecipientsBy net BATCH_SIZE alreadySet entries budget tokenDistributor).
Proof.
  unfold setClaimRecipientsBy. apply preserves_bind; [frame|]. intros mapped.
  apply preserves_batchesFrom.
Qed.

End PreservesRequests.

#[export] Hint Resolve preserves_deploy preserves_wait preserves_send preserves_sendAndWait
  preserves_getGasPrice preserves_readAddress preserves_readNumber preserves_waitForStatus
  preserves_setClaimRecipientsBy : frame.

Lemma preserves_disk_deploySteps (net : Chains) (alreadySet : nat) (entries : Js.object Z)
    (budget : nat) :
  preserves disk (deploySteps net alreadySet entries budget).
Proof.
  unfold deploySteps, deployL1LogicContracts, deployL2LogicContracts,
    deployL1GovernanceFactory, deployAndInitL1Token, deployL2GovernanceFactory,
    deployNovaUpgradeExecutor, deployTokenToNova, initL2Governance, initL1Governance,
    setExecutorRoles, postDeploymentL1TokenTasks, registerTokenOnNova, awaitRedeemed,
    postDeploymentL2TokenTasks, deployAndInitTokenDistributor, setClaimRecipients.
  frame.
Qed.

(** ** Persistence of the progress *)

Lemma substring_all (s : string) : substring 0 (String.length s) s = s.
Proof. induction s as [|c s IH]; cbn; [reflexivity | now rewrite IH]. Qed.

Lemma set_set {V} (o : Js.object V) (key : string) (v v' : V) :
  Js.set (Js.set o key v) key v' = Js.set o key v'.
Proof.
  induction o as [|[k u] rest IH]; cbn.
  - now rewrite String.eqb_refl.
  - destruct (String.eqb k key) eqn:E; cbn; rewrite E; [reflexivity | now rewrite IH].
Qed.

Lemma writeInterrupted_complete (path data : string) (files : Js.object string) :
  writeInterrupted (String.length data) path data files = Js.set files path data.
Proof. unfold writeInterrupted, truncateFile. now rewrite substring_all, set_set. Qed.

Lemma writeAddresses_writes (w : World) :
  writeAddresses w
  = (Returned tt,
     setDisk (fun files => Js.set files DEPLOYED_CONTRACTS_FILE_NAME
                             (stringify (deployedContracts w))) w).
Proof.
  unfold writeAddresses, writeFileSync, setDisk. now rewrite writeInterrupted_complete.
Qed.

(** C5 (as the code has it).  The steps write nothing to disk: a run of the
    sequencer that does not return leaves the files as they were, whatever
    the steps before had confirmed, and a run that returns has written the
    progress file once, after the last step, with the whole of
    [deployedContracts]. *)
Theorem deployGovernance_persists_at_the_end (net : Chains) (alreadySet : nat)
    (entries : Js.object Z) (budget : nat) (w : World) :
  disk (snd (deploySteps net alreadySet entries budget w)) = disk w
  /\
  (forall w',
     deployGovernance net alreadySet entries budget w = (Returned tt, w') ->
     disk w' = Js.set (disk w) DEPLOYED_CONTRACTS_FILE_NAME (stringify (deployedContracts w')))
  /\
  (fst (deployGovernance net alreadySet entries budget w) <> Returned tt ->
   disk (snd (deployGovernance net alreadySet entries budget w)) = disk w).
Proof.
  pose proof (preserves_disk_deploySteps net alreadySet entries budget w) as Hsteps.
  split; [exact Hsteps|].
  unfold deployGovernance, bind.
  destruct (deploySteps net alreadySet entries budget w) as [[[]| |] w1]; cbn in Hsteps.
  - rewrite writeAddresses_writes. split.
    + intros w' Hrun. injection Hrun as <-. cbn. now rewrite Hsteps.
    + cbn. intros Hnot. now contradiction Hnot.
  - split; [discriminate | intros _; exact Hsteps].
  - split; [discriminate | intros _; exact Hsteps].
Qed.

Lemma deployGovernance_persists_at_the_end_witness :
  disk (snd completeRun)
  = Js.set [] DEPLOYED_CONTRACTS_FILE_NAME (stringify (deployedContracts (snd completeRun)))
  /\ disk (snd crashedRun) = [].
Proof.
  split.
  - apply (proj1 (proj2 (deployGovernance_persists_at_the_end
                           (steadyChains BASE_GAS_PRICE) 0 (recipientFile 5) 3
                           (freshProcess [])))).
    vm_compute. reflexivity.
  - apply (proj2 (proj2 (deployGovernance_persists_at_the_end
                           (failingAt 8) 0 (recipientFile 5) 3 (freshProcess [])))).
    vm_compute. discriminate.
Defined.

(** C5, the claim as stated does not hold: when the request that follows
    the first three steps throws, the addresses of these steps are in
    [deployedContracts], and no file has been written. *)
Lemma deployGovernance_crash_loses_confirmed_steps :
  fst crashedRun = Threw requestFailed
  /\ Js.keys (deployedContracts (snd crashedRun))
     = [ "l1UpgradeExecutorLogic"; "l2TimelockLogic"; "l2GovernorLogic";
         "l2FixedDelegateLogic"; "l2TokenLogic"; "l2UpgradeExecutorLogic";
         "l1GovernanceFactory" ]
  /\ requests (snd crashedRun) = 9
  /\ disk (snd crashedRun) = [].
Proof. vm_compute. repeat split. Qed.

(** C6 (as the code has it).  The registration loop starts at the constant
    it is given and writes neither to [deployedContracts] nor to disk,
    however it ends; a run that returns has submitted the slices from that
    constant on. *)
Theorem setClaimRecipients_keeps_no_cursor (net : Chains) (alreadySet : nat)
    (entries : Js.object Z) (budget : nat) (tokenDistributor : string) (w : World) :
  deployedContracts (snd (setClaimRecipients net alreadySet entries budget tokenDistributor w))
  = deployedContracts w
  /\
  disk (snd (setClaimRecipients net alreadySet entries budget tokenDistributor w)) = disk w
  /\
  forall recipients amounts w',
    mapPointsToAmounts entries = Returned (recipients, amounts) ->
    setClaimRecipients net alreadySet entries budget tokenDistributor w = (Returned tt, w') ->
    submittedBatches (trace w')
    = submittedBatches (trace w)
      ++ combine (expectedSlices 100 alreadySet recipients)
                 (expectedSlices 100 alreadySet amounts).
Proof.
  split; [|split].
  - apply (preserves_setClaimRecipientsBy deployedContracts offChain_deployedContracts).
  - apply (preserves_setClaimRecipientsBy disk offChain_disk).
  - intros recipients amounts w' Hmap Hrun. unfold setClaimRecipients in Hrun.
    rewrite (setClaimRecipientsBy_mapped _ _ _ _ _ _ _ _ _ Hmap) in Hrun.
    apply batchesFrom_slices in Hrun; [exact Hrun|].
    now apply mapPointsToAmounts_lengths in Hmap.
Qed.

Lemma setClaimRecipients_keeps_no_cursor_witness :
  submittedBatches (trace (snd (calmRun 250)))
  = submittedBatches (trace (freshProcess []))
    ++ combine (expectedSlices 100 0 (map fst (recipientFile 250)))
               (expectedSlices 100 0 (amountsOf (recipientFile 250))).
Proof.
  apply (proj2 (proj2 (setClaimRecipients_keeps_no_cursor (steadyChains BASE_GAS_PRICE) 0
                         (recipientFile 250) 3 "0xd" (freshProcess [])))
           (map fst (recipientFile 250)) (amountsOf (recipientFile 250)) (snd (calmRun 250))).
  - vm_compute. reflexivity.
  - vm_compute. reflexivity.
Defined.

(** C6, the claim as stated does not hold: after batch 0 is confirmed and
    the submission of batch 1 throws, neither the object nor the disk holds
    a cursor, and the rerun submits batch 0 again. *)
Lemma setClaimRecipients_rerun_repeats_confirmed_batch :
  fst interruptedRegistration = Threw requestFailed
  /\ trace (snd interruptedRegistration)
     = [ sample; Sleep 1000;
         Send Arb "0xd" "setRecipients"
           [Addrs (Js.slice 0 100 (map fst (recipientFile 250)));
            Nums (Js.slice 0 100 (amountsOf (recipientFile 250)))];
         Wait Arb "setRecipients";
         sample; Sleep 1000;
         Send Arb "0xd" "setRecipients"
           [Addrs (Js.slice 100 200 (map fst (recipientFile 250)));
            Nums (Js.slice 100 200 (amountsOf (recipientFile 250)))] ]
  /\ deployedContracts (snd interruptedRegistration) = []
  /\ disk (snd interruptedRegistration) = []
  /\ hd_error (submittedBatches (trace (snd rerunRegistration)))
     = Some (Js.slice 0 100 (map fst (recipientFile 250)),
             Js.slice 0 100 (amountsOf (recipientFile 250))).
Proof. vm_compute. repeat split. Qed.

(** ** The sequencer never consults the progress *)

Lemma sameRequests_refl (w : World) : sameRequests w w.
Proof. split; reflexivity. Qed.

Lemma blind_ret {A} (a : A) : blind (ret a).
Proof. intros w1 w2 H. split; [reflexivity | exact H]. Qed.

Lemma blind_throw {A} (message : string) : blind (@throw A message).
Proof. intros w1 w2 H. split; [reflexivity | exact H]. Qed.

Lemma blind_outOfFuel {A} : blind (@outOfFuel A).
Proof. intros w1 w2 H. split; [reflexivity | exact H]. Qed.

Lemma blind_liftOutcome {A} (o : Outcome A) : blind (liftOutcome o).
Proof. intros w1 w2 H. split; [reflexivity | exact H]. Qed.

Lemma blind_getDeployers (net : Chains) : blind (getDeployers net).
Proof. intros w1 w2 H. split; [reflexivity | exact H]. Qed.

Lemma blind_store (key value : string) : blind (store key value).
Proof. intros w1 w2 H. split; [reflexivity | exact H]. Qed.

Lemma blind_sleep (ms : Z) : blind (sleep ms).
Proof.
  intros w1 w2 [Htrace Hrequests]. split; [reflexivity|].
  split; cbn; congruence.
Qed.

Lemma blind_request (net : Chains) (e : Event) : blind (request net e).
Proof.
  intros w1 w2 [Htrace Hrequests]. unfold request. rewrite Hrequests.
  destruct (confirms net (requests w2)); cbn; (split; [congruence|]);
    split; cbn; congruence.
Qed.

Lemma blind_writeAddresses : blind writeAddresses.
Proof.
  intros w1 w2 H. rewrite !writeAddresses_writes. split; [reflexivity | exact H].
Qed.

Lemma blind_bind {A B} (m : Script A) (k : A -> Script B) :
  blind m -> (forall a, blind (k a)) -> blind (bind m k).
Proof.
  intros Hm Hk w1 w2 H. unfold bind. destruct (Hm w1 w2 H) as [Hout Hsame].
  destruct (m w1) as [[a1| |] v1], (m w2) as [[a2| |] v2]; cbn in *;
    try discriminate; try (split; [congruence | exact Hsame]).
  injection Hout as ->. now apply Hk.
Qed.

Create HintDb blindness.
#[export] Hint Resolve blind_ret blind_throw blind_outOfFuel blind_liftOutcome
  blind_getDeployers blind_store blind_sleep blind_request blind_writeAddresses
  : blindness.

Ltac blindly :=
  cbv zeta;
  repeat lazymatch goal with
    | |- blind (bind _ _) => apply blind_bind; [|intro]
    | |- blind (if ?b then _ else _) => destruct b
    | |- blind _ => solve [eauto with blindness]
    end.

Section Blind.

Variable net : Chains.

Lemma blind_deploy on factory args : blind (deploy net on factory args).
Proof. unfold deploy. blindly. Qed.

Lemma blind_wait on what : blind (wait net on what).
Proof. unfold wait. blindly. Qed.

Lemma blind_send on contract method args : blind (send net on contract method args).
Proof. unfold send. blindly. Qed.

Lemma blind_sendAndWait on contract method args :
  blind (sendAndWait net on contract method args).
Proof. unfold sendAndWait, send, wait. blindly. Qed.

Lemma blind_getGasPrice on : blind (getGasPrice net on).
Proof. unfold getGasPrice. blindly. Qed.

Lemma blind_readAddress on contract method args :
  blind (readAddress net on contract method args).
Proof. unfold readAddress. blindly. Qed.

Lemma blind_readNumber on contract method args :
  blind (readNumber net on contract method args).
Proof. unfold readNumber. blindly. Qed.

Lemma blind_waitForStatus message : blind (waitForStatus net message).
Proof. unfold waitForStatus. blindly. Qed.

Lemma blind_waitForBaseGasPrice fuel : blind (waitForBaseGasPrice net fuel).
Proof.
  induction fuel as [|fuel IH]; cbn [waitForBaseGasPrice]; [blindly|].
  apply blind_bind; [blindly|]. intros _.
  apply blind_bind; [apply blind_getGasPrice|]. intros price.
  destruct (price =? BASE_GAS_PRICE)%Z; [blindly | exact IH].
Qed.

Lemma blind_gasGuard fuel : blind (gasGuard net fuel).
Proof.
  unfold gasGuard. apply blind_bind; [apply blind_getGasPrice|]. intros price.
  destruct (GAS_PRICE_UNACCEPTABLE_LIMIT <? price)%Z; [|blindly].
  apply blind_bind; [apply blind_waitForBaseGasPrice | intros; blindly].
Qed.

Lemma blind_setRecipients tokenDistributor recipients amounts :
  blind (setRecipients net tokenDistributor recipients amounts).
Proof.
  unfold setRecipients. apply blind_bind; [apply blind_sendAndWait | intros; blindly].
Qed.

Lemma blind_batchesFrom BATCH_SIZE tokenDistributor recipients amounts budget fuel :
  forall i,
  blind (batchesFrom net BATCH_SIZE tokenDistributor recipients amounts budget fuel i).
Proof.
  induction fuel as [|fuel IH]; intros i; cbn [batchesFrom];
    destruct (numOfBatches BATCH_SIZE recipients <? i)%nat; try solve [blindly].
  apply blind_bind; [apply blind_gasGuard|]. intros _.
  apply blind_bind; [blindly|]. intros _.
  destruct (i <? numOfBatches BATCH_SIZE recipients)%nat.
  - apply blind_bind; [apply blind_setRecipients | intros; apply IH].
  - destruct (length recipients =? numOfBatches BATCH_SIZE recipients * BATCH_SIZE)%nat;
      [blindly|].
    apply blind_bind; [apply blind_setRecipients | intros; apply IH].
Qed.

Lemma blind_setClaimRecipientsBy BATCH_SIZE alreadySet entries budget tokenDistributor :
  blind (setClaimRecipientsBy net BATCH_SIZE alreadySet entries budget tokenDistributor).
Proof.
  unfold setClaimRecipientsBy. apply blind_bind; [blindly|]. intros mapped.
  apply blind_batchesFrom.
Qed.

End Blind.

#[export] Hint Resolve blind_deploy blind_wait blind_send blind_sendAndWait
  blind_getGasPrice blind_readAddress blind_readNumber blind_waitForStatus
  blind_setClaimRecipientsBy : blindness.

Lemma blind_deployGovernance (net : Chains) (alreadySet : nat) (entries : Js.object Z)
    (budget : nat) :
  blind (deployGovernance net alreadySet entries budget).
Proof.
  unfold deployGovernance, deploySteps, deployL1LogicContracts, deployL2LogicContracts,
    deployL1GovernanceFactory, deployAndInitL1Token, deployL2GovernanceFactory,
    deployNovaUpgradeExecutor, deployTokenToNova, initL2Governance, initL1Governance,
    setExecutorRoles, postDeploymentL1TokenTasks, registerTokenOnNova, awaitRedeemed,
    postDeploymentL2TokenTasks, deployAndInitTokenDistributor, setClaimRecipients.
  blindly.
Qed.

(** C4 (as the code has it).  No step of the sequencer is gated by the
    progress: what a run asks of the chains, and how it ends, is the same
    whatever [deployedContracts] and the files on disk hold when it starts;
    in particular a run on recorded progress does what a run on none does. *)
Theorem deployGovernance_ignores_progress (net : Chains) (alreadySet : nat)
    (entries : Js.object Z) (budget : nat) (w1 w2 : World) :
  trace w1 = trace w2 ->
  requests w1 = requests w2 ->
  fst (deployGovernance net alreadySet entries budget w1)
  = fst (deployGovernance net alreadySet entries budget w2)
  /\ trace (snd (deployGovernance net alreadySet entries budget w1))
     = trace (snd (deployGovernance net alreadySet entries budget w2))
  /\ requests (snd (deployGovernance net alreadySet entries budget w1))
     = requests (snd (deployGovernance net alreadySet entries budget w2)).
Proof.
  intros Htrace Hrequests.
  destruct (blind_deployGovernance net alreadySet entries budget w1 w2) as [Hout [Ht Hr]].
  - now split.
  - auto.
Qed.

Lemma deployGovernance_ignores_progress_witness :
  fst resumedRun = fst completeRun
  /\ trace (snd resumedRun) = trace (snd completeRun)
  /\ requests (snd resumedRun) = requests (snd completeRun).
Proof.
  apply (deployGovernance_ignores_progress (steadyChains BASE_GAS_PRICE) 0 (recipientFile 5) 3
           resumedWorld (freshProcess [])); reflexivity.
Defined.

(** C4, the claim as stated does not hold: with the keys of steps 1 to 8
    recorded in the object and in the progress file, the run still begins
    with the deployments of steps 1 and 2, and deploys all of it again. *)
Lemma deployGovernance_rerun_starts_at_step_one :
  Js.keys (deployedContracts resumedWorld) = Js.keys stepsOneToEight
  /\ firstn 6 (trace (snd resumedRun))
     = [ Deploy Eth "UpgradeExecutor" [];
         Deploy Arb "ArbitrumTimelock" [];
         Deploy Arb "L2ArbitrumGovernor" [];
         Deploy Arb "FixedDelegateErc20Wallet" [];
         Deploy Arb "L2ArbitrumToken" [];
         Deploy Arb "UpgradeExecutor" [] ]
  /\ trace (snd resumedRun) = trace (snd completeRun)
  /\ Js.get (deployedContracts (snd resumedRun)) "l1UpgradeExecutorLogic" = Some "0xc0".
Proof. vm_compute. repeat split. Qed.

(** ** Retryable messages of the L1 token step *)

Lemma isRedeemed_true (s : L1ToL2MessageStatus) : isRedeemed s = true <-> s = REDEEMED.
Proof. destruct s; cbn; split; congruence. Qed.

Lemma awaitRedeemed_confirmed (net : Chains) (w : World) :
  confirms net (requests w) = true ->
  confirms net (S (requests w)) = true ->
  awaitRedeemed net w
  = (if negb (isRedeemed (status net (requests w)))
     then Threw (registerTokenNotRedeemed (status net (requests w)))
     else if negb (isRedeemed (status net (S (requests w))))
          then Threw (setGatewayNotRedeemed (status net (S (requests w))))
          else Returned tt,
     bothAwaited w).
Proof.
  intros H0 H1. unfold awaitRedeemed, waitForStatus, bind, request, ret, throw.
  rewrite H0. cbn. rewrite H1.
  destruct (isRedeemed (status net (requests w))),
           (isRedeemed (status net (S (requests w)))); reflexivity.
Qed.

Lemma awaitRedeemed_returned (net : Chains) (w w' : World) :
  awaitRedeemed net w = (Returned tt, w') ->
  status net (requests w) = REDEEMED /\ status net (S (requests w)) = REDEEMED.
Proof.
  unfold awaitRedeemed, waitForStatus, bind, request, ret, throw.
  destruct (confirms net (requests w)); [|discriminate]. cbn.
  destruct (confirms net (S (requests w))); [|discriminate].
  destruct (isRedeemed (status net (requests w))) eqn:E0; [|discriminate].
  destruct (isRedeemed (status net (S (requests w)))) eqn:E1; [|discriminate].
  intros _. split; now apply isRedeemed_true.
Qed.

(** C8.  Once the registration is sent, the step awaits the final status of
    both retryable messages and only then checks them: it returns when both
    are REDEEMED, and only then; otherwise it throws an error whose message
    ends in the status of the first message that is not redeemed. *)
Theorem postDeploymentL1TokenTasks_redeemed (net : Chains)
    (l1TokenProxy l1ProxyAdminAddress novaTokenAddress : string) (w w1 : World) :
  registerTokenOnNova net l1TokenProxy l1ProxyAdminAddress novaTokenAddress w
  = (Returned tt, w1) ->
  confirms net (requests w1) = true ->
  confirms net (S (requests w1)) = true ->
  (status net (requests w1) = REDEEMED ->
   status net (S (requests w1)) = REDEEMED ->
   postDeploymentL1TokenTasks net l1TokenProxy l1ProxyAdminAddress novaTokenAddress w
   = (Returned tt, bothAwaited w1))
  /\
  (status net (requests w1) <> REDEEMED ->
   postDeploymentL1TokenTasks net l1TokenProxy l1ProxyAdminAddress novaTokenAddress w
   = (Threw ("Register token L1 to L2 message not redeemed. Status: "
             ++ Js.toString (statusCode (status net (requests w1))))%string,
      bothAwaited w1))
  /\
  (status net (requests w1) = REDEEMED ->
   status net (S (requests w1)) <> REDEEMED ->
   postDeploymentL1TokenTasks net l1TokenProxy l1ProxyAdminAddress novaTokenAddress w
   = (Threw ("Set gateway L1 to L2 message not redeemed. Status: "
             ++ Js.toString (statusCode (status net (S (requests w1)))))%string,
      bothAwaited w1))
  /\
  (forall w',
     postDeploymentL1TokenTasks net l1TokenProxy l1ProxyAdminAddress novaTokenAddress w
     = (Returned tt, w') ->
     status net (requests w1) = REDEEMED /\ status net (S (requests w1)) = REDEEMED).
Proof.
  intros Hregister H0 H1.
  unfold postDeploymentL1TokenTasks, bind. rewrite Hregister.
  split; [|split; [|split]].
  - intros Hs0 Hs1. rewrite awaitRedeemed_confirmed by assumption.
    apply isRedeemed_true in Hs0, Hs1. now rewrite Hs0, Hs1.
  - intros Hs0. rewrite awaitRedeemed_confirmed by assumption.
    destruct (isRedeemed (status net (requests w1))) eqn:E; [|reflexivity].
    now apply isRedeemed_true in E.
  - intros Hs0 Hs1. rewrite awaitRedeemed_confirmed by assumption.
    apply isRedeemed_true in Hs0. rewrite Hs0. cbn.
    destruct (isRedeemed (status net (S (requests w1)))) eqn:E; [|reflexivity].
    now apply isRedeemed_true in E.
  - intros w' Hrun. now apply awaitRedeemed_returned in Hrun.
Qed.

Example tokenTasks_both_redeemed : fst (tokenTasksRun REDEEMED REDEEMED) = Returned tt.
Proof. reflexivity. Qed.

Example tokenTasks_first_expired :
  fst (tokenTasksRun EXPIRED REDEEMED)
  = Threw "Register token L1 to L2 message not redeemed. Status: 5".
Proof. reflexivity. Qed.

Example tokenTasks_second_deposited :
  fst (tokenTasksRun REDEEMED FUNDS_DEPOSITED_ON_L2)
  = Threw "Set gateway L1 to L2 message not redeemed. Status: 3".
Proof. reflexivity. Qed.

Lemma postDeploymentL1TokenTasks_redeemed_witness :
  tokenTasksRun REDEEMED REDEEMED
  = (Returned tt,
     bothAwaited (snd (registerTokenOnNova (redeemingChains REDEEMED REDEEMED)
                         "0xproxy" "0xadmin" "0xnova" (freshProcess []))))
  /\
  fst (tokenTasksRun EXPIRED REDEEMED)
  = Threw "Register token L1 to L2 message not redeemed. Status: 5"
  /\
  fst (tokenTasksRun REDEEMED CREATION_FAILED)
  = Threw "Set gateway L1 to L2 message not redeemed. Status: 2".
Proof.
  split; [|split].
  - apply (proj1 (postDeploymentL1TokenTasks_redeemed (redeemingChains REDEEMED REDEEMED)
                    "0xproxy" "0xadmin" "0xnova" (freshProcess [])
                    (snd (registerTokenOnNova (redeemingChains REDEEMED REDEEMED)
                            "0xproxy" "0xadmin" "0xnova" (freshProcess [])))
                    eq_refl eq_refl eq_refl)); reflexivity.
  - unfold tokenTasksRun.
    rewrite (proj1 (proj2 (postDeploymentL1TokenTasks_redeemed
                             (redeemingChains EXPIRED REDEEMED)
                             "0xproxy" "0xadmin" "0xnova" (freshProcess [])
                             (snd (registerTokenOnNova (redeemingChains EXPIRED REDEEMED)
                                     "0xproxy" "0xadmin" "0xnova" (freshProcess [])))
                             eq_refl eq_refl eq_refl))); [reflexivity|].
    cbn. discriminate.
  - unfold tokenTasksRun.
    rewrite (proj1 (proj2 (proj2 (postDeploymentL1TokenTasks_redeemed
                             (redeemingChains REDEEMED CREATION_FAILED)
                             "0xproxy" "0xadmin" "0xnova" (freshProcess [])
                             (snd (registerTokenOnNova (redeemingChains REDEEMED CREATION_FAILED)
                                     "0xproxy" "0xadmin" "0xnova" (freshProcess [])))
                             eq_refl eq_refl eq_refl)))); [reflexivity| reflexivity |].
    cbn. discriminate.
Defined.

(** ** Mode of deployment *)

Lemma isLocalDeployment_false (conf : EnvVars) :
  isLocalDeployment conf = false <-> env_isLocalDeployment conf = Some "false".
Proof.
  unfold isLocalDeployment. destruct (env_isLocalDeployment conf) as [value|].
  - destruct (String.eqb_spec value "false") as [->|Hne]; cbn; split;
      congruence.
  - split; discriminate.
Qed.

Lemma localDeployment_mode (conf : EnvVars) (host : Host) (mode : Mode) :
  localDeployment conf host = Returned mode -> mode = LocalTest.
Proof.
  unfold localDeployment, andThen.
  repeat match goal with
         | |- context [match ?o with Returned _ => _ | Threw _ => _ | OutOfFuel => _ end] =>
             destruct o; try discriminate
         end.
  congruence.
Qed.

(** C10 (as the code has it).  [isLocalDeployment] answers false exactly
    when the variable is the string false.  With the variable unset the run
    stops in [checkEnvVars], before any chain is asked for its identifier;
    with any other value than that string, once the environment check and
    the loading of the recipients pass, the run is the local test set-up with
    its chain identifier checks, and whenever it returns it is in local test
    mode. *)
Theorem isLocalDeployment_selects_mode (conf : EnvVars) (host : Host) :
  (isLocalDeployment conf = false <-> env_isLocalDeployment conf = Some "false")
  /\
  (env_isLocalDeployment conf = None ->
   isLocalDeployment conf = true
   /\ getDeployersAndConfig conf host = Threw "Missing isLocalDeployment in env vars")
  /\
  (forall value claimRecipients,
     env_isLocalDeployment conf = Some value ->
     value <> "false" ->
     checkEnvVars conf host = Returned tt ->
     loadRecipients host (env_daoRecipientsLocation conf) = Returned tt ->
     loadRecipients host (env_vestedRecipientsLocation conf) = Returned tt ->
     loadClaimRecipients conf host = Returned claimRecipients ->
     getDeployersAndConfig conf host
     = andThen (localDeployment conf host) (fun mode => Returned (mode, claimRecipients)))
  /\
  (forall mode claimRecipients,
     env_isLocalDeployment conf <> Some "false" ->
     getDeployersAndConfig conf host = Returned (mode, claimRecipients) ->
     mode = LocalTest).
Proof.
  split; [apply isLocalDeployment_false|]. split; [|split].
  - intros Hunset. split.
    + unfold isLocalDeployment. now rewrite Hunset.
    + unfold getDeployersAndConfig, checkEnvVars. now rewrite Hunset.
  - intros value claimRecipients Hvalue Hne Henv Hdao Hvested Hclaim.
    assert (Hlocal : isLocalDeployment conf = true).
    { destruct (isLocalDeployment conf) eqn:E; [reflexivity|].
      apply isLocalDeployment_false in E. congruence. }
    unfold getDeployersAndConfig, loadDaoRecipients, loadVestedRecipients.
    rewrite Henv. cbn [andThen]. rewrite Hdao. cbn [andThen].
    rewrite Hvested. cbn [andThen]. rewrite Hclaim. cbn [andThen].
    now rewrite Hlocal.
  - intros mode claimRecipients Hne Hrun.
    assert (Hlocal : isLocalDeployment conf = true).
    { destruct (isLocalDeployment conf) eqn:E; [reflexivity|].
      apply isLocalDeployment_false in E. congruence. }
    unfold getDeployersAndConfig in Hrun. rewrite Hlocal in Hrun.
    unfold andThen in Hrun.
    destruct (checkEnvVars conf host); try discriminate.
    destruct (loadDaoRecipients conf host); try discriminate.
    destruct (loadVestedRecipients conf host); try discriminate.
    destruct (loadClaimRecipients conf host); try discriminate.
    destruct (localDeployment conf host) as [mode'| |] eqn:E; try discriminate.
    injection Hrun as <- _. now apply localDeployment_mode in E.
Qed.

Lemma isLocalDeployment_selects_mode_witness :
  (isLocalDeployment (sampleEnv None) = true
   /\ getDeployersAndConfig (sampleEnv None) (sampleHost sampleRecipients)
      = Threw "Missing isLocalDeployment in env vars")
  /\
  getDeployersAndConfig (sampleEnv (Some "flase")) (sampleHost sampleRecipients)
  = andThen (localDeployment (sampleEnv (Some "flase")) (sampleHost sampleRecipients))
      (fun mode =>
         Returned (mode, [ ("0xaa", Some (parseEther 3000));
                           ("0xbb", Some (parseEther 10500));
                           ("0xcc", Some (parseEther 12000)) ]))
  /\
  LocalTest = LocalTest.
Proof.
  split; [|split].
  - apply (proj1 (proj2 (isLocalDeployment_selects_mode (sampleEnv None)
                           (sampleHost sampleRecipients)))).
    reflexivity.
  - apply (proj1 (proj2 (proj2 (isLocalDeployment_selects_mode (sampleEnv (Some "flase"))
                                   (sampleHost sampleRecipients))))
             "flase"); try reflexivity.
    discriminate.
  - apply (proj2 (proj2 (proj2 (isLocalDeployment_selects_mode (sampleEnv (Some ""))
                                   (sampleHost sampleRecipients))))
             LocalTest
             [ ("0xaa", Some (parseEther 3000));
               ("0xbb", Some (parseEther 10500));
               ("0xcc", Some (parseEther 12000)) ]).
    + cbn. discriminate.
    + reflexivity.
Defined.

(** C10, the claim as stated does not hold: with the variable unset
    [isLocalDeployment] answers true and the local checks would pass, yet
    the run throws in [checkEnvVars] and is set up in no mode. *)
Lemma getDeployersAndConfig_unset_throws :
  env_isLocalDeployment (sampleEnv None) = None
  /\ isLocalDeployment (sampleEnv None) = true
  /\ localDeployment (sampleEnv None) (sampleHost sampleRecipients) = Returned LocalTest
  /\ getDeployersAndConfig (sampleEnv None) (sampleHost sampleRecipients)
     = Threw "Missing isLocalDeployment in env vars".
Proof. repeat split. Qed.

Example getDeployersAndConfig_production :
  fst_mode (getDeployersAndConfig (sampleEnv (Some "false")) (sampleHost sampleRecipients))
  = Threw "Production chain ID should be used in production mode for L1".
Proof. reflexivity. Qed.

(** ** Writing the progress file *)

Lemma get_set_same {V} (o : Js.object V) (key : string) (value : V) :
  Js.get (Js.set o key value) key = Some value.
Proof.
  induction o as [|[k v] rest IH]; cbn.
  - now rewrite String.eqb_refl.
  - destruct (String.eqb k key) eqn:E; cbn; now rewrite E.
Qed.

Lemma get_set_other {V} (o : Js.object V) (key other : string) (value : V) :
  other <> key -> Js.get (Js.set o key value) other = Js.get o other.
Proof.
  intros Hne. induction o as [|[k v] rest IH]; cbn.
  - destruct (String.eqb_spec key other); [congruence | reflexivity].
  - destruct (String.eqb_spec k key) as [->|Hk]; cbn.
    + destruct (String.eqb_spec key other); [congruence | reflexivity].
    + now rewrite IH.
Qed.

Lemma keys_set {V} (o : Js.object V) (key path : string) (value : V) :
  In path (Js.keys (Js.set o key value)) -> path = key \/ In path (Js.keys o).
Proof.
  induction o as [|[k v] rest IH]; cbn.
  - intros [<-|[]]. now left.
  - destruct (String.eqb_spec k key) as [->|Hk]; cbn.
    + intros [<-|Hin]; auto.
    + intros [<-|Hin]; auto. destruct (IH Hin); auto.
Qed.

Lemma writeInterrupted_prefix (written : nat) (path data : string)
    (files : Js.object string) :
  Js.get (writeInterrupted written path data files) path = Some (substring 0 written data).
Proof. unfold writeInterrupted. apply get_set_same. Qed.

(** C7 (as the code has it).  Both writers replace the contents of the
    progress file in place, with one [writeFileSync] of the serialised
    record: when the call has returned the file holds the whole
    serialisation, every other file is as it was and no file besides the
    target has appeared; a write interrupted after some characters leaves
    that prefix in the target. *)
Theorem updateDeployedContracts_writes_in_place (location : string)
    (cache : DeployProgressCache) (w : World) :
  (updateDeployedContracts location cache w
   = (Returned tt, setDisk (fun files => Js.set files location (stringifyIndented cache)) w)
   /\ writeAddresses w
      = (Returned tt,
         setDisk (fun files => Js.set files DEPLOYED_CONTRACTS_FILE_NAME
                                 (stringify (deployedContracts w))) w))
  /\
  Js.get (disk (snd (updateDeployedContracts location cache w))) location
  = Some (stringifyIndented cache)
  /\
  (forall path,
     path <> location ->
     Js.get (disk (snd (updateDeployedContracts location cache w))) path
     = Js.get (disk w) path)
  /\
  (forall path,
     In path (Js.keys (disk (snd (updateDeployedContracts location cache w)))) ->
     path = location \/ In path (Js.keys (disk w)))
  /\
  (forall written,
     Js.get (writeInterrupted written location (stringifyIndented cache) (disk w)) location
     = Some (substring 0 written (stringifyIndented cache))).
Proof.
  assert (Hrun : updateDeployedContracts location cache w
                 = (Returned tt,
                    setDisk (fun files => Js.set files location (stringifyIndented cache)) w)).
  { unfold updateDeployedContracts, writeFileSync, setDisk.
    now rewrite writeInterrupted_complete. }
  rewrite Hrun. cbn [snd setDisk disk].
  split; [split; [reflexivity | apply writeAddresses_writes]|].
  split; [apply get_set_same|].
  split; [intros path Hne; now apply get_set_other|].
  split; [intros path; apply keys_set|].
  intros written. apply writeInterrupted_prefix.
Qed.

Lemma updateDeployedContracts_writes_in_place_witness :
  Js.get (disk (snd (updateDeployedContracts progressLocation cacheAfter
                       (freshProcess (("other.json", "{}") :: diskBefore)))))
    "other.json"
  = Js.get (disk (freshProcess (("other.json", "{}") :: diskBefore))) "other.json".
Proof.
  apply (proj1 (proj2 (proj2 (updateDeployedContracts_writes_in_place progressLocation
                                cacheAfter
                                (freshProcess (("other.json", "{}") :: diskBefore)))))).
  discriminate.
Defined.

(** C7, the claim as stated does not hold: a write of the next record that
    is interrupted after twelve characters leaves a file that holds neither
    the record written before nor the new one, and no other file holds
    either. *)
Lemma updateDeployedContracts_interrupted_write_corrupts :
  Js.get diskBefore progressLocation = Some (stringifyIndented cacheBefore)
  /\ Js.get (writeInterrupted 12 progressLocation (stringifyIndented cacheAfter) diskBefore)
       progressLocation
     = Some ("{" ++ newline ++ "  " ++ quote ++ "l1Upgra")%string
  /\ ("{" ++ newline ++ "  " ++ quote ++ "l1Upgra")%string <> stringifyIndented cacheBefore
  /\ ("{" ++ newline ++ "  " ++ quote ++ "l1Upgra")%string <> stringifyIndented cacheAfter
  /\ Js.keys (writeInterrupted 12 progressLocation (stringifyIndented cacheAfter) diskBefore)
     = [progressLocation]
  /\ Js.get (writeInterrupted 0 progressLocation (stringifyIndented cacheAfter) diskBefore)
       progressLocation
     = Some EmptyString.
Proof. vm_compute. repeat split; discriminate. Qed.

Example stringifyIndented_sample :
  stringifyIndented cacheAfter
  = ("{" ++ newline
     ++ "  " ++ quote ++ "l1UpgradeExecutorLogic" ++ quote ++ ": "
     ++ quote ++ "0xaaaa" ++ quote ++ "," ++ newline
     ++ "  " ++ quote ++ "step3Executed" ++ quote ++ ": true" ++ newline
     ++ "}")%string.
Proof. reflexivity. Qed.

(** * Further properties of the scripts *)

(** ** The recipient mapper on bad and good files *)

Lemma mapPointsToAmounts_from_first_invalid (before : Js.object Z) :
  forall key points after tokenRecipients tokenAmounts,
  Forall (fun e => validPoints (snd e)) before ->
  ~ validPoints points ->
  mapPointsToAmounts_from (before ++ (key, points) :: after) tokenRecipients tokenAmounts
  = Threw (incorrectPoints key points).
Proof.
  induction before as [|[k p] rest IH];
    intros key points after tokenRecipients tokenAmounts Hvalid Hbad; cbn.
  - now rewrite amountForPoints_invalid.
  - inversion Hvalid as [|? ? Hp Hrest]; subst. cbn in Hp.
    apply amountForPoints_valid in Hp as [amount ->]. now apply IH.
Qed.

(** X1.  The error of the mapper names the first account, in the order of
    the file, whose points are outside the table; the accounts after it
    play no part, valid or not. *)
Theorem mapPointsToAmounts_first_invalid (before after : Js.object Z) (key : string)
    (points : Z) :
  Forall (fun e => validPoints (snd e)) before ->
  ~ validPoints points ->
  mapPointsToAmounts (before ++ (key, points) :: after)
  = Threw ("Incorrect number of points for account " ++ key ++ ": "
           ++ Js.toString points)%string.
Proof. intros Hvalid Hbad. now apply mapPointsToAmounts_from_first_invalid. Qed.

Lemma mapPointsToAmounts_first_invalid_witness :
  mapPointsToAmounts ([("0xaa", 3)] ++ ("0xbb", 16) :: [("0xcc", 2)])%Z
  = Threw "Incorrect number of points for account 0xbb: 16".
Proof.
  apply (mapPointsToAmounts_first_invalid [("0xaa", 3%Z)] [("0xcc", 2%Z)] "0xbb" 16).
  - apply Forall_cons; [unfold validPoints; in_list | apply Forall_nil].
  - cbn. intuition discriminate.
Defined.

Lemma parseEther_le (a b : Z) : (a <= b)%Z -> (parseEther a <= parseEther b)%Z.
Proof.
  intros H. unfold parseEther. apply Z.mul_le_mono_nonneg_r; [|exact H].
  apply Z.pow_nonneg. lia.
Qed.

(** X2.  More points never give fewer tokens, and every amount lies between
    3000 and 12000 tokens. *)
Theorem amountForPoints_monotone (p q a b : Z) :
  amountForPoints p = Some a ->
  amountForPoints q = Some b ->
  (p <= q)%Z ->
  (a <= b)%Z /\ (parseEther 3000 <= a <= parseEther 12000)%Z.
Proof.
  intros Ha Hb Hle.
  apply amountForPoints_table in Ha as [ta [Hina ->]].
  apply amountForPoints_table in Hb as [tb [Hinb ->]].
  cbn in Hina, Hinb.
  repeat (destruct Hina as [Hina|Hina]; [injection Hina as <- <-|]); try contradiction;
    (split; [|split; apply parseEther_le; lia]);
    repeat (destruct Hinb as [Hinb|Hinb]; [injection Hinb as <- <-|]); try contradiction;
    first [apply parseEther_le; lia | exfalso; lia].
Qed.

Lemma amountForPoints_monotone_witness :
  (parseEther 4500 <= parseEther 12000)%Z
  /\ (parseEther 3000 <= parseEther 4500 <= parseEther 12000)%Z.
Proof.
  apply (amountForPoints_monotone 4 9 (parseEther 4500) (parseEther 12000));
    [reflexivity | reflexivity | lia].
Defined.

(** ** The batch loop at its edges *)

(** X3.  When the length of the recipient list is a multiple of the batch
    size and every batch is already set (an empty file from batch 0, for
    one), the run still samples the gas price, stays in the polling loop
    while the guard holds it, and sleeps one second; it submits nothing. *)
Theorem setClaimRecipients_nothing_left (net : Chains) (BATCH_SIZE : nat)
    (entries : Js.object Z) (budget : nat) (tokenDistributor : string) (w : World)
    (recipients : list string) (amounts : list Z) :
  mapPointsToAmounts entries = Returned (recipients, amounts) ->
  length recipients = length recipients / BATCH_SIZE * BATCH_SIZE ->
  0 < budget ->
  setClaimRecipientsBy net BATCH_SIZE (length recipients / BATCH_SIZE) entries budget
    tokenDistributor w
  = bind (gasGuard net budget) (fun _ => sleep 1000) w
  /\ submittedBatches
       (trace (snd (setClaimRecipientsBy net BATCH_SIZE (length recipients / BATCH_SIZE)
                      entries budget tokenDistributor w)))
     = submittedBatches (trace w).
Proof.
  intros Hmap Hexact Hbudget.
  assert (Hrun : setClaimRecipientsBy net BATCH_SIZE (length recipients / BATCH_SIZE) entries
                   budget tokenDistributor w
                 = bind (gasGuard net budget) (fun _ => sleep 1000) w).
  { rewrite (setClaimRecipientsBy_mapped _ _ _ _ _ _ _ _ _ Hmap).
    destruct budget as [|fuel]; [lia|]. cbn [batchesFrom]. unfold numOfBatches.
    rewrite Nat.ltb_irrefl. apply Nat.eqb_eq in Hexact. rewrite Hexact.
    unfold bind at 1 3. destruct (gasGuard net (S fuel) w) as [[[]| |] w1]; reflexivity. }
  split; [exact Hrun|]. rewrite Hrun.
  apply (submitsNothing_bind (gasGuard net budget) (fun _ => sleep 1000)).
  - apply submitsNothing_gasGuard.
  - intros _. apply submitsNothing_sleep.
Qed.

Lemma setClaimRecipients_nothing_left_witness :
  setClaimRecipientsBy (sampledChains [150000000]%Z 110000000) 100 (0 / 100) [] 5 "0xd"
    (freshProcess [])
  = bind (gasGuard (sampledChains [150000000]%Z 110000000) 5) (fun _ => sleep 1000)
      (freshProcess [])
  /\ submittedBatches
       (trace (snd (setClaimRecipientsBy (sampledChains [150000000]%Z 110000000) 100
                      (0 / 100) [] 5 "0xd" (freshProcess []))))
     = submittedBatches (trace (freshProcess [])).
Proof.
  apply (setClaimRecipients_nothing_left (sampledChains [150000000]%Z 110000000) 100 [] 5
           "0xd" (freshProcess []) [] []); [reflexivity | reflexivity | lia].
Defined.

(** An empty file on chains whose gas price stays above the base price:
    the run is held by the guard though it has nothing to submit. *)
Example setClaimRecipients_empty_file_waits :
  fst (setClaimRecipients (sampledChains [150000000]%Z 110000000) 0 [] 50 "0xd"
         (freshProcess []))
  = OutOfFuel.
Proof. reflexivity. Qed.

(** X4.  A start index beyond [numOfBatches] makes the loop end before its
    first round: nothing is asked of the chain and the world is as it was. *)
Theorem setClaimRecipients_started_past_the_end (net : Chains) (BATCH_SIZE alreadySet : nat)
    (entries : Js.object Z) (budget : nat) (tokenDistributor : string) (w : World)
    (recipients : list string) (amounts : list Z) :
  mapPointsToAmounts entries = Returned (recipients, amounts) ->
  length recipients / BATCH_SIZE < alreadySet ->
  setClaimRecipientsBy net BATCH_SIZE alreadySet entries budget tokenDistributor w
  = (Returned tt, w).
Proof.
  intros Hmap Hpast. rewrite (setClaimRecipientsBy_mapped _ _ _ _ _ _ _ _ _ Hmap).
  apply Nat.ltb_lt in Hpast.
  destruct budget; cbn [batchesFrom]; unfold numOfBatches; now rewrite Hpast.
Qed.

Lemma setClaimRecipients_started_past_the_end_witness :
  setClaimRecipientsBy (failingAt 0) 100 3 (recipientFile 250) 0 "0xd" (freshProcess [])
  = (Returned tt, freshProcess []).
Proof.
  apply (setClaimRecipients_started_past_the_end (failingAt 0) 100 3 (recipientFile 250) 0 "0xd"
           (freshProcess []) (map fst (recipientFile 250)) (amountsOf (recipientFile 250))).
  - vm_compute. reflexivity.
  - vm_compute. lia.
Defined.

(** ** The batches cover the list *)

Lemma expectedSlices_induction {A} (batchSize : nat) (l : list A)
    (P : nat -> list (list A) -> Prop) :
  (forall i, length l / batchSize < i -> P i []) ->
  P (length l / batchSize)
    (if (length l =? length l / batchSize * batchSize)%nat then []
     else [Js.sliceFrom (length l / batchSize * batchSize) l]) ->
  (forall i rest,
     i < length l / batchSize -> P (S i) rest -> P i (fullSlice batchSize l i :: rest)) ->
  forall i, P i (expectedSlices batchSize i l).
Proof.
  intros Hdone Hlast Hfull i.
  destruct (Nat.lt_ge_cases (length l / batchSize) i) as [Hpast|Hin].
  - rewrite expectedSlices_done by exact Hpast. now apply Hdone.
  - remember (length l / batchSize - i) as d eqn:Hd. revert i Hin Hd.
    induction d as [|d IH]; intros i Hin Hd.
    + assert (i = length l / batchSize) as -> by lia.
      rewrite expectedSlices_last. exact Hlast.
    + rewrite expectedSlices_full by lia. apply Hfull; [lia|]. apply IH; lia.
Qed.

Lemma fullSlice_then_rest {A} (batchSize : nat) (l : list A) (i : nat) :
  fullSlice batchSize l i ++ skipn (S i * batchSize) l = skipn (i * batchSize) l.
Proof.
  unfold fullSlice, Js.slice.
  replace ((i + 1) * batchSize - i * batchSize) with batchSize by lia.
  replace (S i * batchSize) with (batchSize + i * batchSize) by lia.
  rewrite <- skipn_skipn. apply firstn_skipn.
Qed.

Lemma concat_expectedSlices {A} (batchSize : nat) (l : list A) (i : nat) :
  i <= length l / batchSize ->
  concat (expectedSlices batchSize i l) = skipn (i * batchSize) l.
Proof.
  revert i.
  apply (expectedSlices_induction batchSize l
           (fun i slices => i <= length l / batchSize ->
                            concat slices = skipn (i * batchSize) l)).
  - intros i Hpast Hin. lia.
  - intros _. destruct (Nat.eqb_spec (length l) (length l / batchSize * batchSize)) as [E|E].
    + cbn. symmetry. apply skipn_all2. lia.
    + cbn. apply app_nil_r.
  - intros i rest Hfull IH _. cbn. rewrite IH by lia. apply fullSlice_then_rest.
Qed.

Lemma fullSlice_length {A} (batchSize : nat) (l : list A) (i : nat) :
  i < length l / batchSize -> length (fullSlice batchSize l i) = batchSize.
Proof.
  intros Hfull. unfold fullSlice, Js.slice. rewrite length_firstn, length_skipn.
  destruct batchSize as [|b]; [cbn in Hfull; lia|].
  pose proof (Nat.Div0.mul_div_le (length l) (S b)). nia.
Qed.

Lemma expectedSlices_sizes {A} (batchSize : nat) (l : list A) (i : nat) :
  0 < batchSize ->
  Forall (fun slice => 0 < length slice <= batchSize) (expectedSlices batchSize i l).
Proof.
  intros Hpos. revert i.
  apply (expectedSlices_induction batchSize l
           (fun _ slices => Forall (fun slice => 0 < length slice <= batchSize) slices)).
  - intros; constructor.
  - destruct (Nat.eqb_spec (length l) (length l / batchSize * batchSize)) as [E|E];
      constructor; [|constructor].
    unfold Js.sliceFrom. rewrite length_skipn.
    pose proof (Nat.Div0.mul_div_le (length l) batchSize).
    pose proof (Nat.mul_succ_div_gt (length l) batchSize ltac:(lia)). nia.
  - intros i rest Hfull IH. constructor; [|exact IH].
    rewrite fullSlice_length by exact Hfull. lia.
Qed.

Lemma slice_length {A} (from to : nat) (l : list A) :
  length (Js.slice from to l) = Nat.min (to - from) (length l - from).
Proof. unfold Js.slice. now rewrite length_firstn, length_skipn. Qed.

Lemma expectedSlices_same_shape {A B} (batchSize i : nat) (l : list A) (l' : list B) :
  length l = length l' ->
  Forall2 (fun slice slice' => length slice = length slice')
    (expectedSlices batchSize i l) (expectedSlices batchSize i l').
Proof.
  intros Hlen. unfold expectedSlices. rewrite <- Hlen. apply Forall2_app.
  - induction (seq i (length l / batchSize - i)) as [|j js IH]; cbn; constructor;
      [|exact IH]. now rewrite !slice_length, Hlen.
  - destruct ((i <=? length l / batchSize)%nat
              && negb (length l =? length l / batchSize * batchSize)%nat);
      constructor; [|constructor].
    unfold Js.sliceFrom. now rewrite !length_skipn, Hlen.
Qed.

Lemma combine_same_shape {A B} (ls : list (list A)) (ls' : list (list B)) :
  Forall2 (fun slice slice' => length slice = length slice') ls ls' ->
  map fst (combine ls ls') = ls
  /\ map snd (combine ls ls') = ls'
  /\ Forall (fun b => length (snd b) = length (fst b)) (combine ls ls').
Proof.
  induction 1 as [|s s' ls ls' Hs _ [IH1 [IH2 IH3]]]; cbn.
  - repeat split; constructor.
  - rewrite IH1, IH2. repeat split. constructor; [now symmetry | exact IH3].
Qed.

Lemma combine_append {A B} (a1 b1 : list A) (a2 b2 : list B) :
  length a1 = length a2 ->
  combine (a1 ++ b1) (a2 ++ b2) = combine a1 a2 ++ combine b1 b2.
Proof.
  revert a2. induction a1 as [|x a1 IH]; intros [|y a2] Hlen; try discriminate; cbn.
  - reflexivity.
  - f_equal. apply IH. now injection Hlen.
Qed.

(** X5.  A run that returns has submitted, batch after batch and in order,
    exactly the recipients from index [alreadySet * BATCH_SIZE] on with their
    amounts: from batch 0 every account of the file is submitted once.  No
    batch is empty, none exceeds the batch size, and each comes with as
    many amounts as recipients. *)
Theorem setClaimRecipients_covers_the_list (net : Chains) (BATCH_SIZE alreadySet : nat)
    (entries : Js.object Z) (budget : nat) (tokenDistributor : string) (w w' : World)
    (recipients : list string) (amounts : list Z) :
  0 < BATCH_SIZE ->
  mapPointsToAmounts entries = Returned (recipients, amounts) ->
  alreadySet <= length recipients / BATCH_SIZE ->
  setClaimRecipientsBy net BATCH_SIZE alreadySet entries budget tokenDistributor w
  = (Returned tt, w') ->
  exists batches,
    submittedBatches (trace w') = submittedBatches (trace w) ++ batches
    /\ concat (map fst batches) = skipn (alreadySet * BATCH_SIZE) recipients
    /\ concat (map snd batches) = skipn (alreadySet * BATCH_SIZE) amounts
    /\ Forall (fun b => 0 < length (fst b) <= BATCH_SIZE
                        /\ length (snd b) = length (fst b)) batches.
Proof.
  intros Hpos Hmap Hstart Hrun.
  pose proof (mapPointsToAmounts_lengths _ _ _ Hmap) as Hlen.
  rewrite (setClaimRecipientsBy_mapped _ _ _ _ _ _ _ _ _ Hmap) in Hrun.
  apply batchesFrom_slices in Hrun; [|exact Hlen].
  destruct (combine_same_shape _ _
              (expectedSlices_same_shape BATCH_SIZE alreadySet recipients amounts Hlen))
    as [Hfst [Hsnd Hpairs]].
  eexists. split; [exact Hrun|]. rewrite Hfst, Hsnd. repeat split.
  - now apply concat_expectedSlices.
  - apply concat_expectedSlices. now rewrite <- Hlen.
  - pose proof (expectedSlices_sizes BATCH_SIZE recipients alreadySet Hpos) as Hsizes.
    rewrite <- Hfst in Hsizes. rewrite Forall_map in Hsizes.
    rewrite Forall_forall in *. intros b Hb. split; [now apply Hsizes | now apply Hpairs].
Qed.

Lemma setClaimRecipients_covers_the_list_witness :
  exists batches,
    submittedBatches (trace (snd (calmRun 250)))
    = submittedBatches (trace (freshProcess [])) ++ batches
    /\ concat (map fst batches) = skipn (0 * 100) (map fst (recipientFile 250))
    /\ concat (map snd batches) = skipn (0 * 100) (amountsOf (recipientFile 250))
    /\ Forall (fun b => 0 < length (fst b) <= 100
                        /\ length (snd b) = length (fst b)) batches.
Proof.
  apply (setClaimRecipients_covers_the_list (steadyChains BASE_GAS_PRICE) 100 0
           (recipientFile 250) 3 "0xd" (freshProcess []) (snd (calmRun 250))
           (map fst (recipientFile 250)) (amountsOf (recipientFile 250))).
  - lia.
  - vm_compute. reflexivity.
  - vm_compute. lia.
  - vm_compute. reflexivity.
Defined.

Lemma expectedSlices_split {A} (batchSize : nat) (l : list A) (k : nat) :
  k <= length l / batchSize ->
  forall d s,
  s + d = k ->
  expectedSlices batchSize s l
  = map (fullSlice batchSize l) (seq s d) ++ expectedSlices batchSize k l.
Proof.
  intros Hk. induction d as [|d IH]; intros s Hs.
  - rewrite Nat.add_0_r in Hs. now subst.
  - rewrite expectedSlices_full by lia. cbn. f_equal. apply IH. lia.
Qed.

(** X6.  Resuming composes: a run from batch [s] submits the full batches
    from [s] up to [k] and then what a run started at [k] submits, for any
    [k] between [s] and [numOfBatches].  Setting the constant to the number
    of batches already confirmed loses and repeats nothing. *)
Theorem setClaimRecipients_resumes (net net' : Chains) (BATCH_SIZE s k : nat)
    (entries : Js.object Z) (budget budget' : nat) (tokenDistributor : string)
    (w1 w1' w2 w2' : World) (recipients : list string) (amounts : list Z) :
  mapPointsToAmounts entries = Returned (recipients, amounts) ->
  s <= k ->
  k <= length recipients / BATCH_SIZE ->
  setClaimRecipientsBy net BATCH_SIZE s entries budget tokenDistributor w1
  = (Returned tt, w1') ->
  setClaimRecipientsBy net' BATCH_SIZE k entries budget' tokenDistributor w2
  = (Returned tt, w2') ->
  exists rest,
    submittedBatches (trace w2') = submittedBatches (trace w2) ++ rest
    /\ submittedBatches (trace w1')
       = submittedBatches (trace w1)
         ++ combine (map (fullSlice BATCH_SIZE recipients) (seq s (k - s)))
                    (map (fullSlice BATCH_SIZE amounts) (seq s (k - s)))
         ++ rest.
Proof.
  intros Hmap Hsk Hk Hrun1 Hrun2.
  pose proof (mapPointsToAmounts_lengths _ _ _ Hmap) as Hlen.
  rewrite (setClaimRecipientsBy_mapped _ _ _ _ _ _ _ _ _ Hmap) in Hrun1.
  rewrite (setClaimRecipientsBy_mapped _ _ _ _ _ _ _ _ _ Hmap) in Hrun2.
  apply batchesFrom_slices in Hrun1; [|exact Hlen].
  apply batchesFrom_slices in Hrun2; [|exact Hlen].
  eexists. split; [exact Hrun2|]. rewrite Hrun1. f_equal.
  rewrite (expectedSlices_split BATCH_SIZE recipients k Hk (k - s) s) by lia.
  rewrite (expectedSlices_split BATCH_SIZE amounts k) with (d := k - s) (s := s);
    [|now rewrite <- Hlen | lia].
  apply combine_append. now rewrite !length_map.
Qed.

Lemma setClaimRecipients_resumes_witness :
  exists rest,
    submittedBatches
      (trace (snd (setClaimRecipientsBy (steadyChains BASE_GAS_PRICE) 100 1
                     (recipientFile 250) 3 "0xd" (freshProcess []))))
    = submittedBatches (trace (freshProcess [])) ++ rest
    /\ submittedBatches (trace (snd (calmRun 250)))
       = submittedBatches (trace (freshProcess []))
         ++ combine (map (fullSlice 100 (map fst (recipientFile 250))) (seq 0 (1 - 0)))
                    (map (fullSlice 100 (amountsOf (recipientFile 250))) (seq 0 (1 - 0)))
         ++ rest.
Proof.
  apply (setClaimRecipients_resumes (steadyChains BASE_GAS_PRICE) (steadyChains BASE_GAS_PRICE)
           100 0 1 (recipientFile 250) 3 3 "0xd"
           (freshProcess []) (snd (calmRun 250)) (freshProcess [])
           (snd (setClaimRecipientsBy (steadyChains BASE_GAS_PRICE) 100 1
                   (recipientFile 250) 3 "0xd" (freshProcess [])))
           (map fst (recipientFile 250)) (amountsOf (recipientFile 250))).
  - vm_compute. reflexivity.
  - lia.
  - vm_compute. lia.
  - vm_compute. reflexivity.
  - vm_compute. reflexivity.
Defined.

(** ** A failed request ends the run *)

Section FailFast.

Variable net : Chains.

Lemma failFast_still {A} (m : Script A) :
  (forall w, requests (snd (m w)) = requests w) -> failFast net m.
Proof.
  intros Hstill w. rewrite Hstill. repeat split; [lia | intros; lia | intros; lia].
Qed.

Lemma failFast_ret {A} (a : A) : failFast net (ret a).
Proof. now apply failFast_still. Qed.

Lemma failFast_throw {A} (message : string) : failFast net (@throw A message).
Proof. now apply failFast_still. Qed.

Lemma failFast_outOfFuel {A} : failFast net (@outOfFuel A).
Proof. now apply failFast_still. Qed.

Lemma failFast_liftOutcome {A} (o : Outcome A) : failFast net (liftOutcome o).
Proof. now apply failFast_still. Qed.

Lemma failFast_getDeployers : failFast net (getDeployers net).
Proof. now apply failFast_still. Qed.

Lemma failFast_store (key value : string) : failFast net (store key value).
Proof. now apply failFast_still. Qed.

Lemma failFast_sleep (ms : Z) : failFast net (sleep ms).
Proof. now apply failFast_still. Qed.

Lemma failFast_writeAddresses : failFast net writeAddresses.
Proof. apply failFast_still. intros w. now rewrite writeAddresses_writes. Qed.

Lemma failFast_request (e : Event) : failFast net (request net e).
Proof.
  intros w. unfold request.
  destruct (confirms net (requests w)) eqn:E; cbn; repeat split; try lia.
  - intros k [Hk1 Hk2] Hfail. assert (k = requests w) by lia. congruence.
Qed.

Lemma failFast_bind {A B} (m : Script A) (k : A -> Script B) :
  failFast net m -> (forall a, failFast net (k a)) -> failFast net (bind m k).
Proof.
  intros Hm Hk w. unfold bind. destruct (Hm w) as [Hle [Hbefore Hfail]].
  destruct (m w) as [[a| |] w1] eqn:Em; cbn [fst snd] in *.
  - destruct (Hk a w1) as [Hle' [Hbefore' Hfail']].
    assert (Hall : forall j, requests w <= j < requests w1 -> confirms net j = true).
    { intros j Hj. destruct (confirms net j) eqn:E; [reflexivity|].
      specialize (Hfail j Hj E). discriminate. }
    repeat split.
    + lia.
    + intros j Hj1 Hj2. destruct (Nat.lt_ge_cases j (requests w1)).
      * apply Hall. lia.
      * now apply Hbefore'.
    + intros j Hj Hbad. destruct (Nat.lt_ge_cases j (requests w1)).
      * rewrite Hall in Hbad by lia. discriminate.
      * apply (Hfail' j); [lia | exact Hbad].
  - repeat split; [exact Hle | exact Hbefore|].
    intros j Hj Hbad. specialize (Hfail j Hj Hbad). congruence.
  - repeat split; [exact Hle | exact Hbefore|].
    intros j Hj Hbad. specialize (Hfail j Hj Hbad). discriminate.
Qed.

End FailFast.

Create HintDb failing.
#[export] Hint Resolve failFast_ret failFast_throw failFast_outOfFuel failFast_liftOutcome
  failFast_getDeployers failFast_store failFast_sleep failFast_writeAddresses
  failFast_request : failing.

Ltac failing :=
  cbv zeta;
  repeat lazymatch goal with
    | |- failFast _ (bind _ _) => apply failFast_bind; [|intro]
    | |- failFast _ (if ?b then _ else _) => destruct b
    | |- failFast _ _ => solve [eauto with failing]
    end.

Section FailFastRequests.

Variable net : Chains.

Lemma failFast_deploy on factory args : failFast net (deploy net on factory args).
Proof. unfold deploy. failing. Qed.

Lemma failFast_wait on what : failFast net (wait net on what).
Proof. unfold wait. failing. Qed.

Lemma failFast_send on contract method args :
  failFast net (send net on contract method args).
Proof. unfold send. failing. Qed.

Lemma failFast_sendAndWait on contract method args :
  failFast net (sendAndWait net on contract method args).
Proof. unfold sendAndWait, send, wait. failing. Qed.

Lemma failFast_getGasPrice on : failFast net (getGasPrice net on).
Proof. unfold getGasPrice. failing. Qed.

Lemma failFast_readAddress on contract method args :
  failFast net (readAddress net on contract method args).
Proof. unfold readAddress. failing. Qed.

Lemma failFast_readNumber on contract method args :
  failFast net (readNumber net on contract method args).
Proof. unfold readNumber. failing. Qed.

Lemma failFast_waitForStatus message : failFast net (waitForStatus net message).
Proof. unfold waitForStatus. failing. Qed.

Lemma failFast_waitForBaseGasPrice fuel : failFast net (waitForBaseGasPrice net fuel).
Proof.
  induction fuel as [|fuel IH]; cbn [waitForBaseGasPrice]; [failing|].
  apply failFast_bind; [failing|]. intros _.
  apply failFast_bind; [apply failFast_getGasPrice|]. intros price.
  destruct (price =? BASE_GAS_PRICE)%Z; [failing | exact IH].
Qed.

Lemma failFast_gasGuard fuel : failFast net (gasGuard net fuel).
Proof.
  unfold gasGuard. apply failFast_bind; [apply failFast_getGasPrice|]. intros price.
  destruct (GAS_PRICE_UNACCEPTABLE_LIMIT <? price)%Z; [|failing].
  apply failFast_bind; [apply failFast_waitForBaseGasPrice | intros; failing].
Qed.

Lemma failFast_setRecipients tokenDistributor recipients amounts :
  failFast net (setRecipients net tokenDistributor recipients amounts).
Proof.
  unfold setRecipients. apply failFast_bind; [apply failFast_sendAndWait | intros; failing].
Qed.

Lemma failFast_batchesFrom BATCH_SIZE tokenDistributor recipients amounts budget fuel :
  forall i,
  failFast net (batchesFrom net BATCH_SIZE tokenDistributor recipients amounts budget fuel i).
Proof.
  induction fuel as [|fuel IH]; intros i; cbn [batchesFrom];
    destruct (numOfBatches BATCH_SIZE recipients <? i)%nat; try solve [failing].
  apply failFast_bind; [apply failFast_gasGuard|]. intros _.
  apply failFast_bind; [failing|]. intros _.
  destruct (i <? numOfBatches BATCH_SIZE recipients)%nat.
  - apply failFast_bind; [apply failFast_setRecipients | intros; apply IH].
  - destruct (length recipients =? numOfBatches BATCH_SIZE recipients * BATCH_SIZE)%nat;
      [failing|].
    apply failFast_bind; [apply failFast_setRecipients | intros; apply IH].
Qed.

Lemma failFast_setClaimRecipientsBy BATCH_SIZE alreadySet entries budget tokenDistributor :
  failFast net (setClaimRecipientsBy net BATCH_SIZE alreadySet entries budget tokenDistributor).
Proof.
  unfold setClaimRecipientsBy. apply failFast_bind; [failing|]. intros mapped.
  apply failFast_batchesFrom.
Qed.

End FailFastRequests.

#[export] Hint Resolve failFast_deploy failFast_wait failFast_send failFast_sendAndWait
  failFast_getGasPrice failFast_readAddress failFast_readNumber failFast_waitForStatus
  failFast_setClaimRecipientsBy : failing.

Lemma failFast_deployGovernance (net : Chains) (alreadySet : nat) (entries : Js.object Z)
    (budget : nat) :
  failFast net (deployGovernance net alreadySet entries budget).
Proof.
  unfold deployGovernance, deploySteps, deployL1LogicContracts, deployL2LogicContracts,
    deployL1GovernanceFactory, deployAndInitL1Token, deployL2GovernanceFactory,
    deployNovaUpgradeExecutor, deployTokenToNova, initL2Governance, initL1Governance,
    setExecutorRoles, postDeploymentL1TokenTasks, registerTokenOnNova, awaitRedeemed,
    postDeploymentL2TokenTasks, deployAndInitTokenDistributor, setClaimRecipients.
  failing.
Qed.

(** X7.  The sequencer asks nothing of the chains after a request that
    threw: every request of a run but its last went through, and a request
    that does not go through ends the run with that failure, so that a run
    which returns had all its requests confirmed. *)
Theorem deployGovernance_stops_at_first_failure (net : Chains) (alreadySet : nat)
    (entries : Js.object Z) (budget : nat) (w : World) (k : nat) :
  requests w <= k ->
  (S k < requests (snd (deployGovernance net alreadySet entries budget w)) ->
   confirms net k = true)
  /\
  (k < requests (snd (deployGovernance net alreadySet entries budget w)) ->
   confirms net k = false ->
   fst (deployGovernance net alreadySet entries budget w) = Threw requestFailed)
  /\
  (k < requests (snd (deployGovernance net alreadySet entries budget w)) ->
   fst (deployGovernance net alreadySet entries budget w) = Returned tt ->
   confirms net k = true).
Proof.
  intros Hk.
  destruct (failFast_deployGovernance net alreadySet entries budget w)
    as [_ [Hbefore Hfail]].
  split; [now apply Hbefore|]. split.
  - intros Hlt Hbad. apply (Hfail k); [lia | exact Hbad].
  - intros Hlt Hreturned. destruct (confirms net k) eqn:E; [reflexivity|].
    rewrite (Hfail k) in Hreturned; [discriminate | lia | exact E].
Qed.

Lemma deployGovernance_stops_at_first_failure_witness :
  confirms (failingAt 8) 3 = true
  /\ fst crashedRun = Threw requestFailed
  /\ confirms (steadyChains BASE_GAS_PRICE) 40 = true.
Proof.
  split; [|split].
  - apply (proj1 (deployGovernance_stops_at_first_failure (failingAt 8) 0 (recipientFile 5) 3
                    (freshProcess []) 3 ltac:(cbn; lia))).
    vm_compute. lia.
  - apply (proj1 (proj2 (deployGovernance_stops_at_first_failure (failingAt 8) 0
                           (recipientFile 5) 3 (freshProcess []) 8 ltac:(cbn; lia)))).
    + vm_compute. lia.
    + reflexivity.
  - apply (proj2 (proj2 (deployGovernance_stops_at_first_failure
                           (steadyChains BASE_GAS_PRICE) 0 (recipientFile 5) 3
                           (freshProcess []) 40 ltac:(cbn; lia)))).
    + vm_compute. lia.
    + vm_compute. reflexivity.
Defined.

(** ** The keys a run records *)

Lemma keys_set_addKey {V} (o : Js.object V) (key : string) (value : V) :
  Js.keys (Js.set o key value) = addKey (Js.keys o) key.
Proof.
  unfold addKey, Js.keys.
  induction o as [|[k v] rest IH]; cbn [Js.set map fst existsb]; [reflexivity|].
  rewrite (String.eqb_sym key k).
  destruct (String.eqb k key); cbn [map fst orb app]; [reflexivity|].
  rewrite IH. now destruct (existsb (String.eqb key) (map fst rest)).
Qed.

Lemma records_store (key value : string) : records [key] (store key value).
Proof.
  intros w a w' Hrun. injection Hrun as _ <-. cbn. apply keys_set_addKey.
Qed.

Lemma records_preserved {A} (m : Script A) :
  preserves deployedContracts m -> records [] m.
Proof. intros Hm w a w' Hrun. specialize (Hm w). rewrite Hrun in Hm. cbn in *. congruence. Qed.

Lemma records_bind {A B} (keys keys' : list string) (m : Script A) (k : A -> Script B) :
  records keys m -> (forall a, records keys' (k a)) -> records (keys ++ keys') (bind m k).
Proof.
  intros Hm Hk w b w' Hrun. apply bind_returned in Hrun as [a [w1 [Hrun1 Hrun2]]].
  rewrite fold_left_app, <- (Hm _ _ _ Hrun1). exact (Hk a w1 b w' Hrun2).
Qed.

Lemma preserves_contracts_writeAddresses : preserves deployedContracts writeAddresses.
Proof. intros w. now rewrite writeAddresses_writes. Qed.

Ltac recording :=
  cbv zeta;
  repeat lazymatch goal with
    | |- records _ (bind _ _) => eapply records_bind; [|intro]
    | |- records _ (store _ _) => apply records_store
    | |- records _ (if ?b then _ else _) => destruct b
    | |- records _ _ =>
        apply records_preserved;
        solve [eauto using preserves_contracts_writeAddresses with frame]
    end.

Lemma records_deployGovernance (net : Chains) (alreadySet : nat) (entries : Js.object Z)
    (budget : nat) :
  records recordedKeys (deployGovernance net alreadySet entries budget).
Proof.
  assert (H : exists keys,
             records keys (deployGovernance net alreadySet entries budget)
             /\ keys = recordedKeys).
  { eexists. split.
    - unfold deployGovernance, deploySteps, deployL1LogicContracts, deployL2LogicContracts,
        deployL1GovernanceFactory, deployAndInitL1Token, deployL2GovernanceFactory,
        deployNovaUpgradeExecutor, deployTokenToNova, initL2Governance, initL1Governance,
        setExecutorRoles, postDeploymentL1TokenTasks, registerTokenOnNova, awaitRedeemed,
        postDeploymentL2TokenTasks, deployAndInitTokenDistributor, setClaimRecipients.
      recording.
    - reflexivity. }
  destruct H as [keys [Hkeys <-]]. exact Hkeys.
Qed.

Lemma deployGovernance_returned_disk (net : Chains) (alreadySet : nat)
    (entries : Js.object Z) (budget : nat) (w w' : World) :
  deployGovernance net alreadySet entries budget w = (Returned tt, w') ->
  disk w' = Js.set (disk w) DEPLOYED_CONTRACTS_FILE_NAME (stringify (deployedContracts w')).
Proof.
  intros Hrun. unfold deployGovernance in Hrun.
  apply bind_returned in Hrun as [[] [w1 [Hsteps Hwrite]]].
  pose proof (preserves_disk_deploySteps net alreadySet entries budget w) as Hdisk.
  rewrite Hsteps in Hdisk. cbn in Hdisk.
  rewrite writeAddresses_writes in Hwrite. injection Hwrite as <-. cbn. now rewrite Hdisk.
Qed.

(** X8.  A run of the sequencer that returns has assigned to
    [deployedContracts] the twenty-six keys of its steps, in the order of
    the steps, each once, and the progress file holds the serialisation of
    that object; started in a fresh process these are all its keys. *)
Theorem deployGovernance_records_its_steps (net : Chains) (alreadySet : nat)
    (entries : Js.object Z) (budget : nat) (w w' : World) :
  deployGovernance net alreadySet entries budget w = (Returned tt, w') ->
  Js.keys (deployedContracts w')
  = fold_left addKey recordedKeys (Js.keys (deployedContracts w))
  /\ (deployedContracts w = [] -> Js.keys (deployedContracts w') = recordedKeys)
  /\ Js.get (disk w') DEPLOYED_CONTRACTS_FILE_NAME = Some (stringify (deployedContracts w')).
Proof.
  intros Hrun.
  pose proof (records_deployGovernance net alreadySet entries budget w tt w' Hrun) as Hkeys.
  split; [exact Hkeys|]. split.
  - intros Hempty. rewrite Hkeys, Hempty. reflexivity.
  - rewrite (deployGovernance_returned_disk net alreadySet entries budget w w' Hrun).
    apply get_set_same.
Qed.

Lemma deployGovernance_records_its_steps_witness :
  Js.keys (deployedContracts (snd completeRun))
  = fold_left addKey recordedKeys (Js.keys (deployedContracts (freshProcess [])))
  /\ (deployedContracts (freshProcess []) = [] ->
      Js.keys (deployedContracts (snd completeRun)) = recordedKeys)
  /\ Js.get (disk (snd completeRun)) DEPLOYED_CONTRACTS_FILE_NAME
     = Some (stringify (deployedContracts (snd completeRun))).
Proof.
  apply (deployGovernance_records_its_steps (steadyChains BASE_GAS_PRICE) 0 (recipientFile 5) 3
           (freshProcess []) (snd completeRun)).
  vm_compute. reflexivity.
Defined.

(** ** The environment check *)

Lemma throwIf_returned (condition : bool) (message : string) :
  throwIf condition message = Returned tt <-> condition = false.
Proof. destruct condition; cbn; split; congruence. Qed.

Lemma andThen_throwIf (condition : bool) (message : string) (rest : Outcome unit) :
  andThen (throwIf condition message) (fun _ => rest) = Returned tt
  <-> condition = false /\ rest = Returned tt.
Proof.
  destruct condition; cbn.
  - split; [discriminate | intros [H _]; discriminate].
  - split; [now split | now intros [_ H]].
Qed.

Lemma isUndefined_false (x : option string) : isUndefined x = false <-> isSet x.
Proof. unfold isSet. destruct x; cbn; split; congruence. Qed.

Lemma notOnDisk_false (host : Host) (location : option string) :
  notOnDisk (existsSync host) location = false <-> onDisk host location.
Proof.
  unfold onDisk. destruct location as [l|]; cbn.
  - rewrite negb_false_iff. split.
    + intros H. now exists l.
    + intros [l' [Hl H]]. now injection Hl as ->.
  - split; [discriminate|]. intros [l' [Hl _]]. discriminate.
Qed.

(** X9.  [checkEnvVars] returns exactly when every variable it names is
    set, the deployer configuration and the three recipient files are on
    disk, and the ETH key is set or [DEPLOY_TO_LOCAL_ENVIRONMENT] is not the
    empty string; the progress file itself need not exist. *)
Theorem checkEnvVars_returns (conf : EnvVars) (host : Host) :
  checkEnvVars conf host = Returned tt
  <->
  isSet (env_isLocalDeployment conf)
  /\ isSet (env_ethRpc conf) /\ isSet (env_arbRpc conf) /\ isSet (env_novaRpc conf)
  /\ (env_isLocalDeployment conf = Some EmptyString -> isSet (env_ethDeployerKey conf))
  /\ isSet (env_arbDeployerKey conf) /\ isSet (env_novaDeployerKey conf)
  /\ onDisk host (env_deployerConfigLocation conf)
  /\ onDisk host (env_vestedRecipientsLocation conf)
  /\ onDisk host (env_daoRecipientsLocation conf)
  /\ onDisk host (env_claimRecipientsLocation conf)
  /\ isSet (env_deployedContractsLocation conf)
  /\ isSet (env_arbTransferAssetsTXsLocation conf)
  /\ isSet (env_novaTransferAssetsTXsLocation conf).
Proof.
  unfold checkEnvVars.
  rewrite !andThen_throwIf, throwIf_returned, !isUndefined_false, !notOnDisk_false.
  assert (Hkey : isSet (env_isLocalDeployment conf) ->
                 (isFalsy (env_isLocalDeployment conf)
                  && isUndefined (env_ethDeployerKey conf) = false
                  <-> (env_isLocalDeployment conf = Some EmptyString ->
                       isSet (env_ethDeployerKey conf)))).
  { unfold isSet. destruct (env_isLocalDeployment conf) as [value|]; cbn; [|congruence].
    intros _. destruct (String.eqb_spec value EmptyString) as [->|Hne]; cbn.
    - destruct (env_ethDeployerKey conf); cbn; split; try congruence.
      intros H. exfalso. now apply H.
    - split; [|reflexivity]. intros _ H. congruence. }
  assert (Hset : forall location, onDisk host location -> isSet location).
  { intros location [l [-> _]]. discriminate. }
  pose proof (Hset (env_deployerConfigLocation conf)).
  pose proof (Hset (env_vestedRecipientsLocation conf)).
  pose proof (Hset (env_daoRecipientsLocation conf)).
  pose proof (Hset (env_claimRecipientsLocation conf)).
  split.
  - intros [Hlocal Hrest]. split; [exact Hlocal|]. apply Hkey in Hlocal. tauto.
  - intros [Hlocal Hrest]. split; [exact Hlocal|]. apply Hkey in Hlocal. tauto.
Qed.

Lemma checkEnvVars_returns_witness :
  checkEnvVars (sampleEnv (Some "true")) (sampleHost []) = Returned tt.
Proof.
  apply (proj2 (checkEnvVars_returns (sampleEnv (Some "true")) (sampleHost []))).
  unfold isSet, onDisk. cbn.
  repeat split; try discriminate; eexists; split; reflexivity.
Defined.




(** Production without an ETH key is set up all the same. *)
Example production_without_eth_key :
  fst_mode (getDeployersAndConfig (withoutEthKey (sampleEnv (Some "false")))
              (productionHost sampleRecipients))
  = Returned Production.
Proof. reflexivity. Qed.

(** ** The chain identifier guards *)

Lemma checkProduction_returned (host : Host) (on : Layer) (production : Z)
    (message : string) :
  checkProduction host on production message = Returned tt ->
  chainId host on = Returned production.
Proof.
  unfold checkProduction, andThen. intros Hrun.
  destruct (chainId host on) as [answer| |]; try discriminate.
  destruct (Z.eqb_spec answer production) as [Heq|Hne]; cbn in Hrun;
    [now rewrite Heq | discriminate].
Qed.

Lemma checkNotProduction_returned (host : Host) (on : Layer) (production : Z)
    (message : string) :
  checkNotProduction host on production message = Returned tt ->
  hasProvider host on = true ->
  exists id, chainId host on = Returned id /\ id <> production.
Proof.
  unfold checkNotProduction, andThen. intros Hrun Hprovider. rewrite Hprovider in Hrun.
  destruct (chainId host on) as [answer| |]; try discriminate.
  destruct (Z.eqb_spec answer production) as [Heq|Hne]; cbn in Hrun; [discriminate|].
  now exists answer.
Qed.

Lemma andThen_returned {A B} (o : Outcome A) (k : A -> Outcome B) (b : B) :
  andThen o k = Returned b -> exists a, o = Returned a /\ k a = Returned b.
Proof. intros H. destruct o as [a| |]; cbn in H; try discriminate. now exists a. Qed.

(** X11.  In production mode (the variable is the string false) the set-up
    returns only if the three providers answered the identifiers of
    Ethereum, Arbitrum One and Arbitrum Nova: 1, 42161 and 42170. *)
Theorem getDeployersAndConfig_production_chains (conf : EnvVars) (host : Host) (mode : Mode)
    (claimRecipients : Js.object (option Z)) :
  env_isLocalDeployment conf = Some "false" ->
  getDeployersAndConfig conf host = Returned (mode, claimRecipients) ->
  mode = Production
  /\ chainId host Eth = Returned 1%Z
  /\ chainId host Arb = Returned 42161%Z
  /\ chainId host Nova = Returned 42170%Z.
Proof.
  intros Hvalue Hrun. unfold getDeployersAndConfig in Hrun.
  apply isLocalDeployment_false in Hvalue. rewrite Hvalue in Hrun.
  do 4 (apply andThen_returned in Hrun as [? [_ Hrun]]).
  apply andThen_returned in Hrun as [mode' [Hprod Hrun]]. injection Hrun as <- _.
  unfold productionDeployment in Hprod.
  apply andThen_returned in Hprod as [[] [Hchecks Hprod]].
  assert (mode' = Production) as ->.
  { repeat (apply andThen_returned in Hprod as [? [_ Hprod]]). congruence. }
  split; [reflexivity|]. unfold productionChainChecks in Hchecks.
  apply andThen_returned in Hchecks as [[] [Heth Hchecks]].
  apply andThen_returned in Hchecks as [[] [Harb Hnova]].
  repeat split; eapply checkProduction_returned; eauto.
Qed.

Lemma getDeployersAndConfig_production_chains_witness :
  Production = Production
  /\ chainId (productionHost sampleRecipients) Eth = Returned 1%Z
  /\ chainId (productionHost sampleRecipients) Arb = Returned 42161%Z
  /\ chainId (productionHost sampleRecipients) Nova = Returned 42170%Z.
Proof.
  apply (getDeployersAndConfig_production_chains (sampleEnv (Some "false"))
           (productionHost sampleRecipients) Production
           [ ("0xaa", Some (parseEther 3000));
             ("0xbb", Some (parseEther 10500));
             ("0xcc", Some (parseEther 12000)) ]); reflexivity.
Defined.

(** X12.  In local test mode (any other value of the variable) the set-up
    returns only if none of the chains it has a provider for answered the
    identifier of its production chain. *)
Theorem getDeployersAndConfig_local_chains (conf : EnvVars) (host : Host) (mode : Mode)
    (claimRecipients : Js.object (option Z)) (on : Layer) :
  env_isLocalDeployment conf <> Some "false" ->
  getDeployersAndConfig conf host = Returned (mode, claimRecipients) ->
  hasProvider host on = true ->
  exists id, chainId host on = Returned id /\ id <> productionChainId on.
Proof.
  intros Hvalue Hrun Hprovider. unfold getDeployersAndConfig in Hrun.
  assert (Hlocal : isLocalDeployment conf = true).
  { destruct (isLocalDeployment conf) eqn:E; [reflexivity|].
    apply isLocalDeployment_false in E. congruence. }
  rewrite Hlocal in Hrun.
  do 4 (apply andThen_returned in Hrun as [? [_ Hrun]]).
  apply andThen_returned in Hrun as [mode' [Hloc _]].
  unfold localDeployment in Hloc.
  do 5 (apply andThen_returned in Hloc as [[] [_ Hloc]]).
  apply andThen_returned in Hloc as [[] [Hchecks _]].
  unfold localChainChecks in Hchecks.
  apply andThen_returned in Hchecks as [[] [Heth Hchecks]].
  apply andThen_returned in Hchecks as [[] [Harb Hnova]].
  destruct on; cbn [productionChainId];
    eapply checkNotProduction_returned; eauto.
Qed.

Lemma getDeployersAndConfig_local_chains_witness :
  exists id, chainId (sampleHost sampleRecipients) Arb = Returned id
             /\ id <> productionChainId Arb.
Proof.
  apply (getDeployersAndConfig_local_chains (sampleEnv (Some "true"))
           (sampleHost sampleRecipients) LocalTest
           [ ("0xaa", Some (parseEther 3000));
             ("0xbb", Some (parseEther 10500));
             ("0xcc", Some (parseEther 12000)) ] Arb);
    [discriminate | reflexivity | reflexivity].
Defined.

(** A production chain behind the L2 endpoint stops a local run. *)
Example local_run_on_production_chain :
  fst_mode (getDeployersAndConfig (sampleEnv (Some "true")) (productionHost sampleRecipients))
  = Threw "Production chain ID used in test env for L1".
Proof. reflexivity. Qed.

(** X13.  A claim recipient file with an account whose points are outside
    the table stops the set-up, in either mode, with the error of the
    mapper, before any provider is made or asked for its chain. *)
Theorem getDeployersAndConfig_invalid_recipients (conf : EnvVars) (host : Host)
    (entries : Js.object Z) :
  checkEnvVars conf host = Returned tt ->
  loadRecipients host (env_daoRecipientsLocation conf) = Returned tt ->
  loadRecipients host (env_vestedRecipientsLocation conf) = Returned tt ->
  readClaimRecipients host (env_claimRecipientsLocation conf) = Returned entries ->
  Exists (fun e => ~ validPoints (snd e)) entries ->
  exists key points,
    In (key, points) entries /\ ~ validPoints points
    /\ getDeployersAndConfig conf host
       = Threw ("Incorrect number of points for account " ++ key ++ ": "
                ++ Js.toString points)%string.
Proof.
  intros Henv Hdao Hvested Hread Hbad.
  destruct (mapPointsToAmounts_from_invalid entries Hbad [] [])
    as [key [points [Hin [Hinvalid Hmap]]]].
  exists key, points. split; [exact Hin|]. split; [exact Hinvalid|].
  unfold getDeployersAndConfig, loadDaoRecipients, loadVestedRecipients, loadClaimRecipients.
  rewrite Henv. cbn [andThen]. rewrite Hdao. cbn [andThen]. rewrite Hvested. cbn [andThen].
  rewrite Hread. cbn [andThen]. fold (mapPointsToAmounts entries) in Hmap.
  now rewrite Hmap.
Qed.

Lemma getDeployersAndConfig_invalid_recipients_witness :
  exists key points,
    In (key, points) sampleBadRecipients /\ ~ validPoints points
    /\ getDeployersAndConfig (sampleEnv (Some "false")) (productionHost sampleBadRecipients)
       = Threw ("Incorrect number of points for account " ++ key ++ ": "
                ++ Js.toString points)%string.
Proof.
  apply (getDeployersAndConfig_invalid_recipients (sampleEnv (Some "false"))
           (productionHost sampleBadRecipients) sampleBadRecipients);
    try reflexivity.
  apply Exists_cons_tl, Exists_cons_hd. cbn. intuition discriminate.
Defined.

(** ** What a script asks for *)

Section Emits.

Variable P : Event -> Prop.

Lemma emits_still {A} (m : Script A) :
  (forall w, trace (snd (m w)) = trace w) -> emits P m.
Proof. intros Hstill w. exists []. rewrite Hstill, app_nil_r. now split. Qed.

Lemma emits_ret {A} (a : A) : emits P (ret a).
Proof. now apply emits_still. Qed.

Lemma emits_throw {A} (message : string) : emits P (@throw A message).
Proof. now apply emits_still. Qed.

Lemma emits_outOfFuel {A} : emits P (@outOfFuel A).
Proof. now apply emits_still. Qed.

Lemma emits_liftOutcome {A} (o : Outcome A) : emits P (liftOutcome o).
Proof. now apply emits_still. Qed.

Lemma emits_sleep (ms : Z) : P (Sleep ms) -> emits P (sleep ms).
Proof. intros HP w. exists [Sleep ms]. split; [reflexivity | now constructor]. Qed.

Lemma emits_request (net : Chains) (e : Event) : P e -> emits P (request net e).
Proof.
  intros HP w. exists [e]. unfold request.
  destruct (confirms net (requests w)); (split; [reflexivity | now constructor]).
Qed.

Lemma emits_bind {A B} (m : Script A) (k : A -> Script B) :
  emits P m -> (forall a, emits P (k a)) -> emits P (bind m k).
Proof.
  intros Hm Hk w. unfold bind. destruct (Hm w) as [added [Htrace Hadded]].
  destruct (m w) as [[a| |] w1]; cbn [snd] in *; try (now exists added).
  destruct (Hk a w1) as [added' [Htrace' Hadded']].
  exists (added ++ added'). rewrite Htrace', Htrace, app_assoc.
  split; [reflexivity | now apply Forall_app].
Qed.

End Emits.

Ltac emitting :=
  cbv zeta;
  repeat lazymatch goal with
    | |- emits _ (bind _ _) => apply emits_bind; [|intro]
    | |- emits _ (if ?b then _ else _) => destruct b
    | |- emits _ (request _ _) => apply emits_request
    | |- emits _ (sleep _) => apply emits_sleep
    | |- emits _ (ret _) => apply emits_ret
    | |- emits _ (throw _) => apply emits_throw
    | |- emits _ outOfFuel => apply emits_outOfFuel
    | |- emits _ (liftOutcome _) => apply emits_liftOutcome
    end.

Section EmitsRegistration.

Variable net : Chains.
Variable tokenDistributor : string.

Let allowed := registrationEvent tokenDistributor.

Lemma emits_registration_getGasPrice : emits allowed (getGasPrice net Arb).
Proof. unfold getGasPrice. emitting. now left. Qed.

Lemma emits_registration_waitForBaseGasPrice fuel :
  emits allowed (waitForBaseGasPrice net fuel).
Proof.
  induction fuel as [|fuel IH]; cbn [waitForBaseGasPrice]; [emitting|].
  apply emits_bind; [emitting; right; right; now left|]. intros _.
  apply emits_bind; [apply emits_registration_getGasPrice|]. intros price.
  destruct (price =? BASE_GAS_PRICE)%Z; [emitting | exact IH].
Qed.

Lemma emits_registration_gasGuard fuel : emits allowed (gasGuard net fuel).
Proof.
  unfold gasGuard. apply emits_bind; [apply emits_registration_getGasPrice|]. intros price.
  destruct (GAS_PRICE_UNACCEPTABLE_LIMIT <? price)%Z; [|emitting].
  apply emits_bind; [apply emits_registration_waitForBaseGasPrice | intros; emitting].
Qed.

Lemma emits_registration_setRecipients recipients amounts :
  emits allowed (setRecipients net tokenDistributor recipients amounts).
Proof.
  unfold setRecipients, sendAndWait, send, wait. emitting.
  - right; right; right; right. now exists recipients, amounts.
  - right; right; right; now left.
Qed.

Lemma emits_registration_batchesFrom BATCH_SIZE recipients amounts budget fuel :
  forall i,
  emits allowed (batchesFrom net BATCH_SIZE tokenDistributor recipients amounts budget fuel i).
Proof.
  induction fuel as [|fuel IH]; intros i; cbn [batchesFrom];
    destruct (numOfBatches BATCH_SIZE recipients <? i)%nat; try solve [emitting].
  apply emits_bind; [apply emits_registration_gasGuard|]. intros _.
  apply emits_bind; [emitting; right; now left|]. intros _.
  destruct (i <? numOfBatches BATCH_SIZE recipients)%nat.
  - apply emits_bind; [apply emits_registration_setRecipients | intros; apply IH].
  - destruct (length recipients =? numOfBatches BATCH_SIZE recipients * BATCH_SIZE)%nat;
      [emitting|].
    apply emits_bind; [apply emits_registration_setRecipients | intros; apply IH].
Qed.

End EmitsRegistration.

(** X14.  Whatever the chains answer and however it ends, the registration
    of the recipients asks for nothing but samples of the gas price on
    Arbitrum One, sleeps of one and of thirty seconds, and [setRecipients]
    on the distributor it was given, each followed by its confirmation: it
    sends nothing to L1 or to Nova and nothing to another contract. *)
Theorem setClaimRecipients_only_registers (net : Chains) (alreadySet : nat)
    (entries : Js.object Z) (budget : nat) (tokenDistributor : string) (w : World) :
  exists added,
    trace (snd (setClaimRecipients net alreadySet entries budget tokenDistributor w))
    = trace w ++ added
    /\ Forall (registrationEvent tokenDistributor) added.
Proof.
  revert w. change (emits (registrationEvent tokenDistributor)
                      (setClaimRecipients net alreadySet entries budget tokenDistributor)).
  unfold setClaimRecipients, setClaimRecipientsBy.
  apply emits_bind; [emitting|]. intros mapped. apply emits_registration_batchesFrom.
Qed.


(** The transaction of a run at 0.1 gwei with fees of 100000000 wei. *)
Example tokenTasks_registration_sent :
  nth_error (trace (snd (tokenTasksRun REDEEMED REDEEMED))) 9
  = Some (Send Eth "0xproxy" "registerTokenOnL2"
            [ Addr "0xnova"; Num 200000000; Num 200000000;
              Num 1000000; Num 1000000; Num 200000000;
              Num 200000200000000; Num 200000200000000; Signer Eth;
              Num 400000400001000 ]%Z).
Proof. reflexivity. Qed.
